(** * Kinematic core of the Theo Jansen linkage simulator

    Shallow embedding of [codigo/simulador_jansen_gui.py]: the class
    [MecanismoJansen] (link lengths, scale factor, joint solver, trajectory
    sweep) and the two methods of [SimuladorJansenGUI] that touch the
    mechanism or compute the gait figures shown in the information panel.

    Numbers are IEEE binary64 values, as in Python and numpy: the primitive
    floats of the standard library.  Decimal literals are rounded to the
    nearest binary64 value, which is what the Python parser does too.
    The functions the program imports from numpy and scipy and whose code is
    not arithmetic on binary64 ([np.cos], [np.sin], [scipy.optimize.fsolve])
    are parameters of the model. *)

From Stdlib Require Import Floats ZArith Bool.
From stdpp Require Import gmap strings list.

Set Warnings "-inexact-float".

(** ** Python outcomes: a value, or a raised exception *)

Inductive exn : Type :=
  | KeyError (k : string)
  | ValueError
  | IndexError
  | RuntimeWarning.

Inductive outcome (A : Type) : Type :=
  | Ok (a : A)
  | Raise (e : exn).
Arguments Ok {A} a.
Arguments Raise {A} e.

#[global] Instance outcome_ret : MRet outcome := fun A a => Ok a.
#[global] Instance outcome_bind : MBind outcome := fun A B k o =>
  match o with
  | Ok a => k a
  | Raise e => Raise e
  end.

(** Subscription [d[k]] of a dict with string keys. *)
Definition getitem (d : gmap string float) (k : string) : outcome float :=
  match d !! k with
  | Some v => Ok v
  | None => Raise (KeyError k)
  end.

(** ** numpy on binary64 *)

Module np.

(** A 2-element array [np.array([x, y])]. *)
Definition array2 : Type := float * float.

Definition pi : float := 0x1.921fb54442d18p+1.
Definition nan : float := PrimFloat.nan.

Definition isnan (x : float) : bool := PrimFloat.is_nan x.

(** The same test on the specification-level view of a binary64 value. *)
Definition SFis_nan (x : spec_float) : bool :=
  match x with S754_nan => true | _ => false end.

(** Element-wise [p + q] and [p - q] on 2-element arrays. *)
Definition add (p q : array2) : array2 :=
  let '(px, py) := p in let '(qx, qy) := q in ((px + qx)%float, (py + qy)%float).
Definition sub (p q : array2) : array2 :=
  let '(px, py) := p in let '(qx, qy) := q in ((px - qx)%float, (py - qy)%float).

(** [np.linalg.norm] of a real 2-element array: the square root of the
    dot product of the array with itself.  numpy leaves the evaluation of
    the dot product to its BLAS kernel, which may fuse the multiplication
    and the addition, so the last bit of the result can differ from the
    one computed here.  The norm is only ever evaluated inside the residual
    functions handed to the root-finder, and nothing below depends on its
    last bit. *)
Definition linalg_norm (p : array2) : float :=
  let '(px, py) := p in PrimFloat.sqrt (px * px + py * py)%float.

(** Conversion of a Python integer (an index, a count below 2^63) to
    binary64, rounding to nearest. *)
Definition float_of_Z (z : Z) : float := PrimFloat.of_uint63 (Uint63.of_Z z).

(** [np.linspace(start, stop, num)] with the default [endpoint=True], for
    scalar [start] and [stop], following numpy's function step by step. *)
Definition linspace (start stop : float) (num : Z) : outcome (list float) :=
  if (num <? 0)%Z then Raise ValueError
  else
    let div := (num - 1)%Z in
    let delta := (stop - start)%float in
    (* y = arange(0, num) as floats *)
    let y := (fun i => float_of_Z (Z.of_nat i)) <$> seq 0 (Z.to_nat num) in
    let y :=
      if (0 <? div)%Z then
        let step := (delta / float_of_Z div)%float in
        if (step =? 0)%float
        then (fun v => (v / float_of_Z div * delta)%float) <$> y
        else (fun v => (v * step)%float) <$> y
      else (fun v => (v * delta)%float) <$> y in
    (* y += start *)
    let y := (fun v => (v + start)%float) <$> y in
    (* if endpoint and num > 1: y[-1] = stop *)
    let y := if (1 <? num)%Z then <[ (Z.to_nat num - 1)%nat := stop ]> y else y in
    Ok y.

(** [np.fmax(a, b)] and [np.fmin(a, b)]: the comparison wins unless the
    second argument is NaN, so a NaN is returned only when both are.
    Of two arguments that compare equal (the zeros of opposite sign) the
    first is kept here; numpy leaves that choice to the platform's
    [fmax] and [fmin].  What is proved of the gait figures below holds
    for either choice: it rests on the result being a largest, respectively
    smallest, entry that is not NaN, never on which of two equal entries
    it is. *)
Definition fmax (a b : float) : float :=
  if (b <=? a)%float || isnan b then a else b.
Definition fmin (a b : float) : float :=
  if (a <=? b)%float || isnan b then a else b.

(** [ufunc.reduce] over a 1-d array: a left fold seeded with the first
    element (numpy may combine the entries in another order, which for
    fmax and fmin can only change which of two equal entries is returned);
    an empty array has no identity for fmax/fmin. *)
Definition reduce (f : float -> float -> float) (a : list float) : outcome float :=
  match a with
  | [] => Raise ValueError
  | x :: rest => Ok (foldl f x rest)
  end.

(** [np.nanmax] and [np.nanmin] on a float array: [fmax.reduce] and
    [fmin.reduce] (an all-NaN array only triggers a warning). *)
Definition nanmax (a : list float) : outcome float := reduce fmax a.
Definition nanmin (a : list float) : outcome float := reduce fmin a.

End np.

(** ** scipy's root-finder

    What [scipy.optimize.fsolve] computes for a residual function and a
    starting point: the final iterate [sol_x] and MINPACK's flag [sol_ier]
    ([1] when the iteration converged, [2..5] when it stopped without
    converging).  Called as [fsolve(func, x0)], with the default
    [full_output=0], it hands back [sol_x] alone; a flag other than [1] only
    triggers a warning.  Like every Python call it may also raise. *)

Record fsolve_result : Type := { sol_x : np.array2; sol_ier : Z }.

Definition root_finder : Type :=
  (np.array2 -> np.array2) -> np.array2 -> outcome fsolve_result.

Definition converged (r : fsolve_result) : bool := (sol_ier r =? 1)%Z.

(** ** class MecanismoJansen *)

Module MecanismoJansen.

(** The attributes of an instance. *)
Record t : Type := mk {
  L : gmap string float;
  escala : float;
  L_scaled : gmap string float
}.

(** Methods run on an instance, may change its attributes, and either
    return a value or raise. *)
Definition M (A : Type) : Type := t -> outcome A * t.

#[global] Instance M_ret : MRet M := fun A a self => (Ok a, self).
#[global] Instance M_bind : MBind M := fun A B k m self =>
  match m self with
  | (Ok a, self') => k a self'
  | (Raise e, self') => (Raise e, self')
  end.

Definition lift {A} (o : outcome A) : M A := fun self => (o, self).
Definition get : M t := fun self => (Ok self, self).
Definition put (s : t) : M unit := fun _ => (Ok tt, s).

(** [try: body  except: handler] with a bare [except]. *)
Definition try_except {A} (body handler : M A) : M A :=
  fun self =>
    match body self with
    | (Ok a, self') => (Ok a, self')
    | (Raise _, self') => handler self'
    end.

(** [acc = []; for x in xs: acc.append(body(x))]. *)
Fixpoint for_each {A B} (body : A -> M B) (xs : list A) : M (list B) :=
  match xs with
  | [] => mret []
  | x :: rest => b ← body x; bs ← for_each body rest; mret (b :: bs)
  end.

(** The six named points returned by the solver. *)
Record puntos : Type := mk_puntos {
  A : np.array2; B : np.array2; C : np.array2;
  D : np.array2; E : np.array2; F : np.array2
}.

(** [__init__]: the original proportions (mm), scale 5.0, then
    [aplicar_escala]. *)
Definition L_original : gmap string float :=
  <["a" := 38.0%float]> (<["b" := 41.5%float]> (<["c" := 39.3%float]>
  (<["d" := 40.1%float]> (<["e" := 55.8%float]> (<["f" := 39.4%float]>
  (<["g" := 36.7%float]> (<["h" := 65.7%float]> (<["m" := 7.8%float]>
  (<["n" := 25.0%float]> ∅))))))))).

Definition aplicar_escala : M unit :=
  self ← get;
  put (mk (L self) (escala self) ((fun v => (v * escala self)%float) <$> L self)).

Definition init : t :=
  snd (aplicar_escala (mk L_original 5.0%float ∅)).

Definition actualizar_longitud (nombre : string) (valor : float) : M unit :=
  self ← get;
  put (mk (<[nombre := valor]> (L self)) (escala self) (L_scaled self));;
  aplicar_escala.

(** The residual functions handed to the root-finder.  Each closes over
    two anchor points and two scaled lengths of the enclosing call. *)
Definition ecuaciones_D (C B : np.array2) (Lb Lc : float) (vars : np.array2) : np.array2 :=
  let D := vars in
  let eq1 := (np.linalg_norm (np.sub D C) - Lb)%float in   (* |DC| = b *)
  let eq2 := (np.linalg_norm (np.sub D B) - Lc)%float in   (* |DB| = c *)
  (eq1, eq2).

Definition ecuaciones_E (D B : np.array2) (Ld Le : float) (vars : np.array2) : np.array2 :=
  let E := vars in
  let eq1 := (np.linalg_norm (np.sub E D) - Ld)%float in
  let eq2 := (np.linalg_norm (np.sub E B) - Le)%float in
  (eq1, eq2).

Definition ecuaciones_F (E D : np.array2) (Lf Lg : float) (vars : np.array2) : np.array2 :=
  let F := vars in
  let eq1 := (np.linalg_norm (np.sub F E) - Lf)%float in
  let eq2 := (np.linalg_norm (np.sub F D) - Lg)%float in
  (eq1, eq2).

Section Solver.

Variables np_cos np_sin : float -> float.
Variable scipy_fsolve : root_finder.

(** [fsolve(func, x0)]: only the final iterate comes back. *)
Definition fsolve (func : np.array2 -> np.array2) (x0 : np.array2) : outcome np.array2 :=
  r ← scipy_fsolve func x0; mret (sol_x r).

(** The body of [resolver_cinematica] once [L = self.L_scaled] is read:
    from there on the method works on [L] and its locals only.  [A] is the
    integer array [0, 0] in the source; added to a float array it acts as
    (0.0, 0.0).  The dict subscriptions that the source performs inside a
    residual function happen on the root-finder's first evaluation of it,
    that is before the root-finder can fail in any way of its own; the
    model performs them right before the call. *)
Definition resolver_con (L : gmap string float) (theta : float) : outcome puntos :=
  let A := (0, 0)%float in
  Lm ← getitem L "m";
  Ln ← getitem L "n";
  let B := (Lm, Ln) in
  La ← getitem L "a";
  let C := np.add A ((La * np_cos theta)%float, (La * np_sin theta)%float) in
  Lb ← getitem L "b";
  let D_init := np.add C (Lb, 0%float) in
  Lc ← getitem L "c";
  D ← fsolve (ecuaciones_D C B Lb Lc) D_init;
  Ld ← getitem L "d";
  let E_init := np.add D (Ld, ((- Ld) / 2)%float) in
  Le ← getitem L "e";
  E ← fsolve (ecuaciones_E D B Ld Le) E_init;
  Lf ← getitem L "f";
  let F_init := np.add E (Lf, (- Lf)%float) in
  Lg ← getitem L "g";
  F ← fsolve (ecuaciones_F E D Lf Lg) F_init;
  mret (mk_puntos A B C D E F).

(** [resolver_cinematica(theta)]. *)
Definition resolver_cinematica (theta : float) : M puntos :=
  self ← get;
  lift (resolver_con (L_scaled self) theta).

(** The crank angles of a sweep: [np.linspace(0, 2*np.pi, n_puntos)]. *)
Definition thetas (n_puntos : Z) : outcome (list float) :=
  np.linspace 0 (2 * np.pi) n_puntos.

(** [calcular_trayectoria(n_puntos)]. *)
Definition calcular_trayectoria (n_puntos : Z) : M (list np.array2) :=
  thetas ← lift (thetas n_puntos);
  for_each
    (fun theta =>
       try_except
         (puntos ← resolver_cinematica theta; mret (F puntos))
         (mret (np.nan, np.nan)))
    thetas.

End Solver.

End MecanismoJansen.

(** ** class SimuladorJansenGUI: the methods acting on the mechanism

    Redrawing the canvas and writing the labels are left out; what is kept
    is the change made to [self.mecanismo] and the two numbers computed for
    the information panel. *)

Module SimuladorJansenGUI.
Import MecanismoJansen.

Definition actualizar_longitud (clave : string) (valor : float) : M unit :=
  MecanismoJansen.actualizar_longitud clave valor.

Definition actualizar_escala (valor : float) : M unit :=
  self ← get;
  put (mk (L self) valor (L_scaled self));;
  aplicar_escala.

Record informacion : Type := mk_informacion {
  longitud_paso : float;   (* cm *)
  altura_paso : float      (* cm *)
}.

(** [actualizar_informacion(trayectoria, pie)], the two gait figures.
    [trayectoria[:, 0]] needs a 2-d array: the array built from an empty
    list is 1-d and the subscription raises. *)
Definition actualizar_informacion (trayectoria : list np.array2) : outcome informacion :=
  match trayectoria with
  | [] => Raise IndexError
  | _ =>
      let xs := fst <$> trayectoria in
      let ys := snd <$> trayectoria in
      match np.nanmax xs, np.nanmin xs, np.nanmax ys with
      | Ok xmax, Ok xmin, Ok ymax =>
          Ok (mk_informacion ((xmax - xmin) / 10)%float (ymax / 10)%float)
      | Raise e, _, _ | _, Raise e, _ | _, _, Raise e => Raise e
      end
  end.

End SimuladorJansenGUI.

(** ** The joint pipeline in the words of the specification

    Section 4.2 of the specification, over the same binary64 operations:
    named link lengths, two fixed points, the crank tip in closed form, and
    three two-circle systems solved one after the other, each from its
    prescribed initial guess. *)

Module Spec.

Record lengths : Type := mk_lengths {
  crank_length : float;
  coupler1_length : float;
  coupler2_length : float;
  coupler3_length : float;
  rocker1_length : float;
  rocker2_length : float;
  ternary1_length : float;
  ternary2_length : float;
  offset_x : float;
  offset_y : float
}.

(** The link identifiers of the dict, as the source's comments name them:
    a crank, b/c/d couplers 1-3, e/f rockers 1-2, g/h ternaries 1-2,
    m/n the offsets of the second fixed point. *)
Definition lengths_of (L : gmap string float) : option lengths :=
  a ← L !! "a"; b ← L !! "b"; c ← L !! "c"; d ← L !! "d"; e ← L !! "e";
  f ← L !! "f"; g ← L !! "g"; h ← L !! "h"; m ← L !! "m"; n ← L !! "n";
  Some (mk_lengths a b c d e f g h m n).

Definition link_ids : list string :=
  ["a"; "b"; "c"; "d"; "e"; "f"; "g"; "h"; "m"; "n"].

Definition dist (P Q : np.array2) : float := np.linalg_norm (np.sub P Q).

(** "The point X satisfying |X-P| = r and |X-Q| = s", as the two
    residuals a root-finder drives to zero. *)
Definition two_distances (P : np.array2) (r : float) (Q : np.array2) (s : float)
    (X : np.array2) : np.array2 :=
  ((dist X P - r)%float, (dist X Q - s)%float).

Definition joint_pipeline (cos sin : float -> float)
    (root_find : (np.array2 -> np.array2) -> np.array2 -> outcome np.array2)
    (ls : lengths) (theta : float) : outcome MecanismoJansen.puntos :=
  let A := (0, 0)%float in
  let B := (offset_x ls, offset_y ls) in
  let C := np.add A ((crank_length ls * cos theta)%float,
                     (crank_length ls * sin theta)%float) in
  D ← root_find (two_distances C (coupler1_length ls) B (coupler2_length ls))
                (np.add C (coupler1_length ls, 0%float));
  E ← root_find (two_distances D (coupler3_length ls) B (rocker1_length ls))
                (np.add D (coupler3_length ls, (- coupler3_length ls / 2)%float));
  F ← root_find (two_distances E (rocker2_length ls) D (ternary1_length ls))
                (np.add E (rocker2_length ls, (- rocker2_length ls)%float));
  mret (MecanismoJansen.mk_puntos A B C D E F).

(** An undefined coordinate is a NaN; a sample is defined when neither
    coordinate is. *)
Definition defined (p : np.array2) : bool :=
  negb (np.isnan (fst p)) && negb (np.isnan (snd p)).

Definition some_defined (l : list float) : bool :=
  existsb (fun x => negb (np.isnan x)) l.

(** [m] is one of the values of [l] that are not NaN, and compares at
    least as well as each of them. *)
Definition best_of_defined (rel : float -> float -> bool) (l : list float) (m : float) : Prop :=
  m ∈ l ∧ np.isnan m = false ∧
  ∀ x, x ∈ l → np.isnan x = false → rel m x = true.

(** [m] is the largest (smallest) of the values of [l] that are not NaN. *)
Definition max_of_defined (l : list float) (m : float) : Prop :=
  best_of_defined (fun m x => (x <=? m)%float) l m.
Definition min_of_defined (l : list float) (m : float) : Prop :=
  best_of_defined (fun m x => (m <=? x)%float) l m.

(** A value a setter ought to refuse: not finite, or not positive. *)
Definition invalid_parameter (v : float) : bool :=
  negb (PrimFloat.is_finite v) || (v <=? 0)%float.

(** The entry of a sweep for one solve: the foot, or the undefined
    marker when the solve raised. *)
Definition foot_or_undefined (o : outcome MecanismoJansen.puntos) : np.array2 :=
  match o with
  | Ok p => MecanismoJansen.F p
  | Raise _ => (np.nan, np.nan)
  end.

End Spec.

(** ** Library values used by the worked examples

    [np.cos] and [np.sin] tabulated at the three arguments the examples
    evaluate them at (0, 2^-70 and the binary64 value of 2*pi), and a
    root-finder that stops at once: it hands back its starting point with
    MINPACK's flag 5 ("the iteration is not making good progress").
    [sin_table] returns its argument below 1 (the sine of a tiny argument
    rounds to the argument) and the sine of the binary64 value of 2*pi,
    about -2.449e-16, elsewhere. *)

Module Examples.

Definition tiny_angle : float := 0x1p-70.

Definition cos_table (x : float) : float := 1.

Definition sin_table (x : float) : float :=
  if (x <? 1)%float then x else (-0x1.1a62633145c07p-52)%float.

Definition fsolve_stalls : root_finder :=
  fun _ x0 => Ok {| sol_x := x0; sol_ier := 5 |}.

(** A root-finder under a warning filter that turns its convergence
    warning into an exception. *)
Definition fsolve_raises : root_finder :=
  fun _ _ => Raise RuntimeWarning.

(** A root-finder that does both: it raises when the starting point lies
    just below the x axis, and otherwise stops unconverged (flag 5) at the
    starting point. *)
Definition fsolve_stalls_or_raises : root_finder :=
  fun _ x0 =>
    if (-1 <? snd x0)%float && (snd x0 <? 0)%float
    then Raise RuntimeWarning
    else Ok {| sol_x := x0; sol_ier := 5 |}.

(** The mechanism after the two couplers of joint D are set to the
    smallest length the spin boxes allow: the two circles around C and B
    are then too far apart to meet. *)
Definition short_couplers : MecanismoJansen.t :=
  snd (MecanismoJansen.actualizar_longitud "c" 10
         (snd (MecanismoJansen.actualizar_longitud "b" 10 MecanismoJansen.init))).

End Examples.

(** ** Python and numpy conversions used by the window *)

(** Exceptions of the window's handlers: those of the core, and the two
    that integer arithmetic adds. *)
Inductive py_exn : Type :=
  | Core (e : exn)
  | ZeroDivisionError
  | OverflowError.

Inductive result (A : Type) : Type :=
  | Returns (a : A)
  | Raises (e : py_exn).
Arguments Returns {A} a.
Arguments Raises {A} e.

(** A Python integer as a binary64 value: the nearest one, ties to even,
    whatever the size of the integer.  (The handlers receive the 32-bit
    integers of Qt's signals; an integer beyond the binary64 range, which
    Python would refuse to convert, is an infinity here.) *)
Definition py_float (z : Z) : float :=
  SF2Prim (binary_normalize prec emax z 0 false).

(** [int(x)] of a float: truncation toward zero; NaN and the infinities
    have no integer value. *)
Definition py_int (x : float) : result Z :=
  match Prim2SF x with
  | S754_zero _ => Returns 0%Z
  | S754_finite s m e =>
      let a := if (0 <=? e)%Z then Z.shiftl (Z.pos m) e else Z.shiftr (Z.pos m) (- e) in
      Returns (if s then (- a)%Z else a)
  | S754_infinity _ => Raises OverflowError
  | S754_nan => Raises (Core ValueError)
  end.

(** [np.deg2rad] and [np.rad2deg]: one multiplication by the binary64
    constant pi/180, respectively 180/pi. *)
Definition np_deg2rad (x : float) : float := (x * (np.pi / 180))%float.
Definition np_rad2deg (x : float) : float := (x * (180 / np.pi))%float.

(** ** class SimuladorJansenGUI: the window's own state and its handlers

    The attributes the handlers read and write, with the two widgets whose
    state they depend on: the angle slider (range 0..360, its
    [valueChanged] signal connected to [cambiar_angulo_manual]) and the
    animation timer.  [QSlider.setValue] bounds the value to the range and
    emits [valueChanged] only when the value changes; [QTimer.start(ms)]
    sets the interval and activates the timer.  Redrawing
    ([actualizar_grafico], which catches its own exceptions) and the texts
    of the button and labels are left out. *)

Module Ventana.

Record QSlider : Type := mk_slider {
  minimum : Z; maximum : Z; value : Z; enabled : bool
}.

Record QTimer : Type := mk_timer { isActive : bool; interval : Z }.

Record t : Type := mk {
  mecanismo : MecanismoJansen.t;
  theta_actual : float;
  animacion_activa : bool;
  velocidad_animacion : Z;
  slider_angulo : QSlider;
  timer : QTimer
}.

(** [__init__]: a fresh mechanism, angle 0, animation off, slider at 0,
    a timer not yet started, 50 ms per frame. *)
Definition inicial : t :=
  mk MecanismoJansen.init 0 false 50 (mk_slider 0 360 0 true) (mk_timer false 0).

Definition cambiar_angulo_manual (valor : Z) (self : t) : t :=
  if negb (animacion_activa self)
  then mk (mecanismo self) (np_deg2rad (py_float valor)) (animacion_activa self)
          (velocidad_animacion self) (slider_angulo self) (timer self)
  else self.

(** [self.slider_angulo.setValue(v)], with the slot its signal runs. *)
Definition slider_angulo_setValue (v : Z) (self : t) : t :=
  let s := slider_angulo self in
  let v' := Z.max (minimum s) (Z.min (maximum s) v) in
  if (v' =? value s)%Z then self
  else
    cambiar_angulo_manual v'
      (mk (mecanismo self) (theta_actual self) (animacion_activa self)
          (velocidad_animacion self)
          (mk_slider (minimum s) (maximum s) v' (enabled s)) (timer self)).

Definition toggle_animacion (self : t) : t :=
  let activa := negb (animacion_activa self) in
  let s := slider_angulo self in
  if activa
  then mk (mecanismo self) (theta_actual self) activa (velocidad_animacion self)
          (mk_slider (minimum s) (maximum s) (value s) false)
          (mk_timer true (velocidad_animacion self))
  else mk (mecanismo self) (theta_actual self) activa (velocidad_animacion self)
          (mk_slider (minimum s) (maximum s) (value s) true)
          (mk_timer false (interval (timer self))).

Definition reiniciar_animacion (self : t) : t :=
  slider_angulo_setValue 0
    (mk (mecanismo self) 0 (animacion_activa self) (velocidad_animacion self)
        (slider_angulo self) (timer self)).

(** The exception raised, if any, and the window as the handler leaves it. *)
Definition actualizar_animacion (self : t) : option py_exn * t :=
  let theta := (theta_actual self + np_deg2rad (py_float 2))%float in
  let theta := if (2 * np.pi <=? theta)%float then 0%float else theta in
  let self := mk (mecanismo self) theta (animacion_activa self)
                 (velocidad_animacion self) (slider_angulo self) (timer self) in
  match py_int (np_rad2deg theta) with
  | Returns n => (None, slider_angulo_setValue n self)
  | Raises e => (Some e, self)
  end.

(** [int(100 / valor)]: dividing by the integer 0 raises; otherwise the
    quotient of two integers below 2^53 is the binary64 division of the
    two converted operands. *)
Definition cambiar_velocidad (valor : Z) (self : t) : option py_exn * t :=
  if (valor =? 0)%Z then (Some ZeroDivisionError, self)
  else
    match py_int (py_float 100 / py_float valor)%float with
    | Returns n =>
        (None,
         mk (mecanismo self) (theta_actual self) (animacion_activa self) n
            (slider_angulo self)
            (if animacion_activa self
             then mk_timer (isActive (timer self)) n
             else timer self))
    | Raises e => (Some e, self)
    end.

(** [n] timer ticks in a row; a tick that raises stops the count. *)
Fixpoint cuadros (n : nat) (self : t) : option py_exn * t :=
  match n with
  | O => (None, self)
  | S n' =>
      match actualizar_animacion self with
      | (None, self') => cuadros n' self'
      | (Some e, self') => (Some e, self')
      end
  end.

(** The number of ticks after which the angle is 0 (exactly) for the
    first time, looking at most [fuel] ticks ahead; none if a tick raises
    first or the angle has not come back by then. *)
Fixpoint cuadros_hasta_cero (fuel : nat) (self : t) : option nat :=
  match fuel with
  | O => None
  | S fuel' =>
      match actualizar_animacion self with
      | (None, self') =>
          if PrimFloat.Leibniz.eqb (theta_actual self') 0 then Some 1%nat
          else S <$> cuadros_hasta_cero fuel' self'
      | (Some _, _) => None
      end
  end.

(** The timer and the slider follow the animation flag. *)
Definition coherente (self : t) : Prop :=
  isActive (timer self) = animacion_activa self ∧
  enabled (slider_angulo self) = negb (animacion_activa self) ∧
  (animacion_activa self = true → interval (timer self) = velocidad_animacion self) ∧
  minimum (slider_angulo self) = 0%Z ∧ maximum (slider_angulo self) = 360%Z ∧
  (0 ≤ value (slider_angulo self) ≤ 360)%Z.

(** The spin boxes of [crear_grupo_eslabones] exist for these links only. *)
Definition nombres : list string := ["a"; "b"; "c"; "d"; "e"; "f"; "g"; "h"].

Definition proporciones_originales : list (string * float) :=
  [("a", 38.0%float); ("b", 41.5%float); ("c", 39.3%float); ("d", 40.1%float);
   ("e", 55.8%float); ("f", 39.4%float); ("g", 36.7%float); ("h", 65.7%float)].

Section Restaurar.

(** What [self.spinboxes[clave].setValue(valor)] emits through
    [valueChanged], if the displayed value changes: the slot then runs
    [self.actualizar_longitud] with it. *)
Variable spinbox_emite : string -> float -> option float.

Fixpoint restaurar_desde (props : list (string * float)) : MecanismoJansen.M unit :=
  match props with
  | [] => mret tt
  | (clave, valor) :: resto =>
      match spinbox_emite clave valor with
      | Some v => SimuladorJansenGUI.actualizar_longitud clave v
      | None => mret tt
      end;;
      MecanismoJansen.actualizar_longitud clave valor;;
      restaurar_desde resto
  end.

(** [restaurar_originales], as it acts on [self.mecanismo]. *)
Definition restaurar_originales : MecanismoJansen.M unit :=
  restaurar_desde proporciones_originales.

End Restaurar.

(** The mechanisms the window can produce: the one built at start, then
    any number of spin-box edits of a link length or of the scale. *)
Inductive alcanzable : MecanismoJansen.t -> Prop :=
  | alc_init : alcanzable MecanismoJansen.init
  | alc_longitud (clave : string) (valor : float) (s : MecanismoJansen.t) :
      clave ∈ nombres -> alcanzable s ->
      alcanzable (snd (SimuladorJansenGUI.actualizar_longitud clave valor s))
  | alc_escala (valor : float) (s : MecanismoJansen.t) :
      alcanzable s ->
      alcanzable (snd (SimuladorJansenGUI.actualizar_escala valor s)).

End Ventana.

(** The identifiers the solver subscripts, in the order it does. *)
Definition claves_leidas : list string :=
  ["m"; "n"; "a"; "b"; "c"; "d"; "e"; "f"; "g"].

(** The scaled lengths follow from the raw ones. *)
Definition consistente (s : MecanismoJansen.t) : Prop :=
  MecanismoJansen.L_scaled s =
  (fun v => (v * MecanismoJansen.escala s)%float) <$> MecanismoJansen.L s.

(** Two binary64 values that stand for the same number: both NaN, or equal
    under the floating-point comparison, which tells the two zeros apart
    no more than Python's [==] does. *)
Definition same_number (a b : float) : Prop :=
  (np.isnan a = true ∧ np.isnan b = true) ∨ (a =? b)%float = true.

(** * Facts about binary64 arithmetic

    Derived from the standard library's specification of the primitive
    floats ([Prim2SF] and the [_spec] equations). *)

Module FloatFacts.

Lemma Prim2SF_one : Prim2SF 1%float = S754_finite false 4503599627370496 (-52).
Proof. vm_compute. reflexivity. Qed.

Lemma fexp_canonical m e k :
  canonical_mantissa prec emax m e = true ->
  (fexp prec emax (Z.pos (digits2_pos m) + k + (e - k)) - (e - k) = k)%Z.
Proof.
  unfold canonical_mantissa, fexp, emin, prec, emax.
  change IntDef.Z.max with Z.max. intros H%Z.eqb_eq. lia.
Qed.

(** Multiplying a valid binary64 value by 1 (mantissa 2^52, exponent -52)
    shifts the product back by 52 bits without losing any. *)
Lemma SF64mul_one_r (x : spec_float) :
  valid_binary x = true ->
  SF64mul x (S754_finite false 4503599627370496 (-52)) = x.
Proof.
  destruct x as [s | s | | s m e]; simpl; intros Hv.
  - now rewrite xorb_false_r.
  - now rewrite xorb_false_r.
  - reflexivity.
  - unfold SF64mul, SFmul. rewrite xorb_false_r.
    unfold bounded in Hv. apply andb_true_iff in Hv as [Hc He].
    unfold binary_round_aux. rewrite Pos.mul_comm.
    change (4503599627370496 * m)%positive with
      (m~0~0~0~0~0~0~0~0~0~0~0~0~0~0~0~0~0~0~0~0~0~0~0~0~0~0~0~0~0~0~0~0~0~0~0~0~0~0~0~0~0~0~0~0~0~0~0~0~0~0~0~0)%positive.
    assert (Hsh : shr_fexp prec emax
              (Z.pos (m~0~0~0~0~0~0~0~0~0~0~0~0~0~0~0~0~0~0~0~0~0~0~0~0~0~0~0~0~0~0~0~0~0~0~0~0~0~0~0~0~0~0~0~0~0~0~0~0~0~0~0~0))
              (e + -52) loc_Exact
            = ({| shr_m := Z.pos m; shr_r := false; shr_s := false |}, e)).
    { unfold shr_fexp, Zdigits2.
      assert (Hd : Z.pos (digits2_pos
                (m~0~0~0~0~0~0~0~0~0~0~0~0~0~0~0~0~0~0~0~0~0~0~0~0~0~0~0~0~0~0~0~0~0~0~0~0~0~0~0~0~0~0~0~0~0~0~0~0~0~0~0~0))
              = (Z.pos (digits2_pos m) + 52)%Z).
      { cbn [digits2_pos]. lia. }
      rewrite Hd. change (e + -52)%Z with (e - 52)%Z.
      rewrite (fexp_canonical m e 52 Hc).
      unfold shr. cbn [SpecFloat.iter_pos shr_record_of_loc shr_1 orb].
      f_equal. lia. }
    rewrite Hsh. cbn [shr_m loc_of_shr_record round_nearest_even].
    unfold shr_fexp, Zdigits2.
    pose proof (fexp_canonical m e 0 Hc) as H0.
    rewrite Z.add_0_r, Z.sub_0_r in H0. rewrite H0.
    cbn [shr shr_record_of_loc shr_m]. now rewrite He.
Qed.

Lemma mul_1_r (x : float) : (x * 1)%float = x.
Proof.
  apply Prim2SF_inj. rewrite mul_spec, Prim2SF_one.
  apply SF64mul_one_r, Prim2SF_valid.
Qed.

Lemma SF64mul_comm x y : SF64mul x y = SF64mul y x.
Proof.
  destruct x as [sx | sx | | sx mx ex], y as [sy | sy | | sy my ey]; simpl;
    rewrite ?(xorb_comm sx sy), ?(Pos.mul_comm mx my), ?(Z.add_comm ex ey);
    reflexivity.
Qed.

Lemma mul_comm (x y : float) : (x * y)%float = (y * x)%float.
Proof. apply Prim2SF_inj. rewrite !mul_spec. apply SF64mul_comm. Qed.

(** *** NaN and the order *)

Lemma SFcompare_refl x : np.SFis_nan x = false -> SFcompare x x = Some Eq.
Proof.
  destruct x as [s | s | | s m e]; simpl; try easy; intros _.
  - now destruct s.
  - rewrite Z.compare_refl.
    change (Pos.compare_cont Eq m m) with (Pos.compare m m).
    rewrite Pos.compare_refl. now destruct s.
Qed.

Lemma is_nan_spec x : PrimFloat.is_nan x = np.SFis_nan (Prim2SF x).
Proof.
  unfold PrimFloat.is_nan. rewrite FloatAxioms.eqb_spec. unfold SFeqb.
  destruct (np.SFis_nan (Prim2SF x)) eqn:Hn.
  - destruct (Prim2SF x); try discriminate. reflexivity.
  - now rewrite SFcompare_refl.
Qed.

Ltac cmp_cases :=
  repeat match goal with
  | |- context [Z.compare ?a ?b] => destruct (Z.compare_spec a b); subst
  | H : context [Z.compare ?a ?b] |- _ => destruct (Z.compare_spec a b); subst
  | |- context [Pos.compare_cont Eq ?a ?b] =>
      change (Pos.compare_cont Eq a b) with (Pos.compare a b);
      destruct (Pos.compare_spec a b); subst
  | H : context [Pos.compare_cont Eq ?a ?b] |- _ =>
      change (Pos.compare_cont Eq a b) with (Pos.compare a b) in H;
      destruct (Pos.compare_spec a b); subst
  end.

Lemma SFleb_total x y :
  np.SFis_nan x = false -> np.SFis_nan y = false ->
  SFleb x y = false -> SFleb y x = true.
Proof.
  unfold SFleb.
  destruct x as [sx | sx | | sx mx ex], y as [sy | sy | | sy my ey]; simpl;
    try easy; intros _ _;
    try (destruct sx; easy); try (destruct sy; easy);
    try (destruct sx, sy; easy).
  destruct sx, sy; try easy; cmp_cases; simpl; try easy; lia.
Qed.

Lemma SFleb_trans x y z :
  SFleb x y = true -> SFleb y z = true -> SFleb x z = true.
Proof.
  unfold SFleb.
  destruct x as [sx | sx | | sx mx ex], y as [sy | sy | | sy my ey],
           z as [sz | sz | | sz mz ez]; simpl; try easy;
    try (destruct sx; easy); try (destruct sy; easy); try (destruct sz; easy);
    try (destruct sx, sy; easy); try (destruct sx, sz; easy);
    try (destruct sy, sz; easy); try (destruct sx, sy, sz; easy).
  destruct sx, sy, sz; try easy; cmp_cases; simpl; try easy; lia.
Qed.

Lemma leb_refl x : np.isnan x = false -> (x <=? x)%float = true.
Proof.
  unfold np.isnan. rewrite is_nan_spec, leb_spec. intros H.
  unfold SFleb. now rewrite SFcompare_refl.
Qed.

Lemma leb_total x y :
  np.isnan x = false -> np.isnan y = false ->
  (x <=? y)%float = false -> (y <=? x)%float = true.
Proof.
  unfold np.isnan. rewrite !is_nan_spec, !leb_spec. apply SFleb_total.
Qed.

Lemma leb_trans x y z :
  (x <=? y)%float = true -> (y <=? z)%float = true -> (x <=? z)%float = true.
Proof. rewrite !leb_spec. apply SFleb_trans. Qed.

Lemma leb_nan_l x y : np.isnan x = true -> (x <=? y)%float = false.
Proof.
  unfold np.isnan. rewrite is_nan_spec, leb_spec. unfold SFleb.
  destruct (Prim2SF x); try discriminate. reflexivity.
Qed.

Lemma leb_nan_r x y : np.isnan y = true -> (x <=? y)%float = false.
Proof.
  unfold np.isnan. rewrite is_nan_spec, leb_spec. unfold SFleb.
  destruct (Prim2SF y); try discriminate. now destruct (Prim2SF x).
Qed.

Lemma sub_nan_l x y : np.isnan x = true -> np.isnan (x - y)%float = true.
Proof.
  unfold np.isnan. rewrite !is_nan_spec, sub_spec.
  destruct (Prim2SF x); try discriminate. reflexivity.
Qed.

Lemma div_nan_l x y : np.isnan x = true -> np.isnan (x / y)%float = true.
Proof.
  unfold np.isnan. rewrite !is_nan_spec, div_spec.
  destruct (Prim2SF x); try discriminate. reflexivity.
Qed.

End FloatFacts.

(** * What the methods compute *)

Module Run.
Import MecanismoJansen.

Lemma aplicar_escala_run self :
  aplicar_escala self =
  (Ok tt, mk (L self) (escala self) ((fun v => (v * escala self)%float) <$> L self)).
Proof. reflexivity. Qed.

Lemma actualizar_longitud_run nombre valor self :
  actualizar_longitud nombre valor self =
  (Ok tt, mk (<[nombre := valor]> (L self)) (escala self)
             ((fun v => (v * escala self)%float) <$> <[nombre := valor]> (L self))).
Proof. reflexivity. Qed.

Lemma actualizar_escala_run valor self :
  SimuladorJansenGUI.actualizar_escala valor self =
  (Ok tt, mk (L self) valor ((fun v => (v * valor)%float) <$> L self)).
Proof. reflexivity. Qed.

(** A loop whose body always returns and leaves the instance alone is a
    map over the list. *)
Lemma for_each_pure {A B} (body : A -> M B) (g : A -> B) self :
  (forall x, body x self = (Ok (g x), self)) ->
  forall xs, for_each body xs self = (Ok (g <$> xs), self).
Proof.
  intros Hbody xs. induction xs as [| x xs IH]; [reflexivity |].
  cbn [for_each]. unfold mbind, M_bind. rewrite Hbody, IH. reflexivity.
Qed.

Section Solver.
Variables np_cos np_sin : float -> float.
Variable scipy_fsolve : root_finder.

Local Abbreviation resolver_con := (resolver_con np_cos np_sin scipy_fsolve).
Local Abbreviation resolver_cinematica := (resolver_cinematica np_cos np_sin scipy_fsolve).
Local Abbreviation calcular_trayectoria := (calcular_trayectoria np_cos np_sin scipy_fsolve).

(** The solver reads [self.L_scaled] and nothing else, and leaves the
    instance as it found it. *)
Lemma resolver_cinematica_run theta self :
  resolver_cinematica theta self = (resolver_con (L_scaled self) theta, self).
Proof. reflexivity. Qed.

(** One turn of the sweep: the bare [except] turns a raising solve into
    the NaN pair. *)
Lemma sweep_step theta self :
  try_except (puntos ← resolver_cinematica theta; mret (F puntos))
             (mret (np.nan, np.nan)) self
  = (Ok (Spec.foot_or_undefined (resolver_con (L_scaled self) theta)), self).
Proof.
  unfold try_except, mbind, M_bind. rewrite resolver_cinematica_run.
  destruct (resolver_con (L_scaled self) theta); reflexivity.
Qed.

Lemma calcular_trayectoria_run n_puntos self :
  calcular_trayectoria n_puntos self =
  (match thetas n_puntos with
   | Ok ts =>
       Ok ((fun theta => Spec.foot_or_undefined (resolver_con (L_scaled self) theta)) <$> ts)
   | Raise e => Raise e
   end, self).
Proof.
  unfold MecanismoJansen.calcular_trayectoria, mbind, M_bind, lift.
  destruct (thetas n_puntos) as [ts | e]; [| reflexivity].
  apply for_each_pure. intros theta. apply sweep_step.
Qed.

(** None of the nine subscriptions of the solver names the key "h". *)
Lemma resolver_con_delete_h L theta :
  resolver_con (delete "h" L) theta = resolver_con L theta.
Proof.
  unfold MecanismoJansen.resolver_con, getitem.
  rewrite !lookup_delete_ne by discriminate. reflexivity.
Qed.

End Solver.

End Run.

(** * The setters *)

(** A dict holds the ten lengths exactly when each of the ten identifiers
    has an entry. *)
Lemma lengths_of_is_Some (m : gmap string float) :
  is_Some (Spec.lengths_of m) ↔ Forall (fun k => is_Some (m !! k)) Spec.link_ids.
Proof.
  unfold Spec.lengths_of, Spec.link_ids. split.
  - intros [ls Hls].
    repeat match type of Hls with
           | context [m !! ?k] =>
               let H := fresh "Hk" in
               destruct (m !! k) eqn:H; [cbn in Hls | discriminate Hls]
           end.
    repeat constructor; eauto.
  - intros H. repeat (apply Forall_cons in H as [[? ->] H]). cbn. eauto.
Qed.

(** The identifiers are never removed: once the ten raw lengths are there,
    every call of a setter leaves ten raw and ten scaled lengths. *)
Lemma setters_keep_lengths (nombre : string) (valor : float) (self : MecanismoJansen.t) :
  is_Some (Spec.lengths_of (MecanismoJansen.L self)) ->
  let s1 := snd (MecanismoJansen.actualizar_longitud nombre valor self) in
  let s2 := snd (SimuladorJansenGUI.actualizar_escala valor self) in
  is_Some (Spec.lengths_of (MecanismoJansen.L s1)) ∧
  is_Some (Spec.lengths_of (MecanismoJansen.L_scaled s1)) ∧
  is_Some (Spec.lengths_of (MecanismoJansen.L s2)) ∧
  is_Some (Spec.lengths_of (MecanismoJansen.L_scaled s2)).
Proof.
  cbv zeta. rewrite Run.actualizar_longitud_run, Run.actualizar_escala_run. cbn.
  rewrite !lengths_of_is_Some. intros H.
  assert (Hins : Forall (fun k => is_Some (<[nombre := valor]> (MecanismoJansen.L self) !! k))
                   Spec.link_ids).
  { eapply Forall_impl; [exact H |]. intros k Hk. cbn.
    rewrite lookup_insert_is_Some. destruct (decide (nombre = k)); auto. }
  repeat split; try assumption.
  - eapply Forall_impl; [exact Hins |]. intros k Hk. cbn in *.
    rewrite lookup_fmap. now apply fmap_is_Some.
  - eapply Forall_impl; [exact H |]. intros k Hk. cbn in *.
    rewrite lookup_fmap. now apply fmap_is_Some.
Qed.

(** The mechanism as constructed holds them. *)
Lemma init_has_lengths :
  is_Some (Spec.lengths_of (MecanismoJansen.L MecanismoJansen.init)) ∧
  is_Some (Spec.lengths_of (MecanismoJansen.L_scaled MecanismoJansen.init)).
Proof. split; vm_compute; eauto. Qed.

Ltac float_discriminate H :=
  apply (f_equal Prim2SF) in H; vm_compute in H; discriminate H.

(** C4, as the code has it: [actualizar_longitud] (setLength) stores any
    value under the given identifier without validating it, never reports
    an error, keeps the scale factor and the other raw lengths, and
    recomputes every scaled length as raw length times scale factor;
    [actualizar_escala] (setScale) does the same with the scale factor. *)
Theorem setters_store_any_value (nombre : string) (valor : float) (self : MecanismoJansen.t) :
  let r := MecanismoJansen.actualizar_longitud nombre valor self in
  let r' := SimuladorJansenGUI.actualizar_escala valor self in
  (fst r = Ok tt ∧
   MecanismoJansen.L (snd r) !! nombre = Some valor ∧
   (∀ k, k ≠ nombre → MecanismoJansen.L (snd r) !! k = MecanismoJansen.L self !! k) ∧
   MecanismoJansen.escala (snd r) = MecanismoJansen.escala self ∧
   (∀ k, MecanismoJansen.L_scaled (snd r) !! k =
         (fun v => (v * MecanismoJansen.escala self)%float) <$> MecanismoJansen.L (snd r) !! k)) ∧
  (fst r' = Ok tt ∧
   MecanismoJansen.escala (snd r') = valor ∧
   MecanismoJansen.L (snd r') = MecanismoJansen.L self ∧
   (∀ k, MecanismoJansen.L_scaled (snd r') !! k =
         (fun v => (v * valor)%float) <$> MecanismoJansen.L self !! k)).
Proof.
  cbv zeta. rewrite Run.actualizar_longitud_run, Run.actualizar_escala_run. cbn.
  repeat split.
  - apply lookup_insert_eq.
  - intros k Hk. now apply lookup_insert_ne.
  - intros k. apply lookup_fmap.
  - intros k. apply lookup_fmap.
Qed.

(** C4, counterexample: on the initial mechanism the non-positive length
    -1.0 for link "a" is accepted and stored, and the scaled length becomes
    -5.0; the scale factor -1.0 is accepted and stored too. *)
Lemma negative_values_are_stored :
  Spec.invalid_parameter (-1)%float = true ∧
  (let r := MecanismoJansen.actualizar_longitud "a" (-1)%float MecanismoJansen.init in
   fst r = Ok tt ∧ snd r ≠ MecanismoJansen.init ∧
   MecanismoJansen.L (snd r) !! "a" = Some (-1)%float ∧
   MecanismoJansen.L_scaled (snd r) !! "a" = Some (-5)%float) ∧
  (let r' := SimuladorJansenGUI.actualizar_escala (-1)%float MecanismoJansen.init in
   fst r' = Ok tt ∧ snd r' ≠ MecanismoJansen.init ∧
   MecanismoJansen.escala (snd r') = (-1)%float).
Proof.
  split; [vm_compute; reflexivity |]. split.
  - cbv zeta. repeat split; try (vm_compute; reflexivity).
    intros H. apply (f_equal (fun s => default 0%float (MecanismoJansen.L s !! "a"))) in H.
    float_discriminate H.
  - cbv zeta. repeat split; try (vm_compute; reflexivity).
    intros H. apply (f_equal MecanismoJansen.escala) in H.
    float_discriminate H.
Qed.

(** * The joint solver *)

Section SolverClaims.
Import MecanismoJansen.

Variables np_cos np_sin : float -> float.
Variable scipy_fsolve : root_finder.

Local Abbreviation resolver_con := (resolver_con np_cos np_sin scipy_fsolve).
Local Abbreviation resolver_cinematica := (resolver_cinematica np_cos np_sin scipy_fsolve).
Local Abbreviation calcular_trayectoria := (calcular_trayectoria np_cos np_sin scipy_fsolve).

(** C8: solving with scale factor [k] and raw lengths [L] gives the same
    snapshot as solving with scale factor 1 and raw lengths [k·L], at
    every crank angle: both instances hold the same scaled lengths,
    because (k·v)·1 = v·k in binary64. *)
Theorem scale_invariance (self : t) (k : float) (escala0 : float)
    (L_scaled0 : gmap string float) (theta : float) :
  let with_scale_k := snd (SimuladorJansenGUI.actualizar_escala k self) in
  let with_lengths_kL :=
    snd (SimuladorJansenGUI.actualizar_escala 1
           (mk ((fun v => (k * v)%float) <$> L self) escala0 L_scaled0)) in
  L_scaled with_scale_k = L_scaled with_lengths_kL ∧
  fst (resolver_cinematica theta with_scale_k)
  = fst (resolver_cinematica theta with_lengths_kL).
Proof.
  cbv zeta. rewrite !Run.actualizar_escala_run, !Run.resolver_cinematica_run. cbn.
  assert (Heq : (fun v => (v * k)%float) <$> L self
                = (fun v => (v * 1)%float) <$> ((fun v => (k * v)%float) <$> L self)).
  { rewrite <- map_fmap_compose. apply map_fmap_ext. intros key v _. cbn.
    rewrite FloatFacts.mul_1_r. apply FloatFacts.mul_comm. }
  rewrite <- Heq. split; reflexivity.
Qed.

(** C9: two sweeps in a row over an instance return the same sequence,
    and neither changes the instance. *)
Theorem sweep_twice_is_identical (n_puntos : Z) (self : t) :
  let first := calcular_trayectoria n_puntos self in
  let second := calcular_trayectoria n_puntos (snd first) in
  fst first = fst second ∧ snd first = self ∧ snd second = self.
Proof.
  cbv zeta. rewrite (Run.calcular_trayectoria_run _ _ _ n_puntos self). cbn [fst snd].
  rewrite (Run.calcular_trayectoria_run _ _ _ n_puntos self). repeat split; reflexivity.
Qed.

(** C10: two instances whose scaled lengths agree on every key but "h"
    give the same snapshot at every crank angle, and the same sweep. *)
Theorem solver_independent_of_h (s1 s2 : t) :
  delete "h" (L_scaled s1) = delete "h" (L_scaled s2) ->
  ∀ (theta : float) (n_puntos : Z),
    fst (resolver_cinematica theta s1) = fst (resolver_cinematica theta s2) ∧
    fst (calcular_trayectoria n_puntos s1) = fst (calcular_trayectoria n_puntos s2).
Proof.
  intros Hdel theta n_puntos.
  assert (Hcon : ∀ th, resolver_con (L_scaled s1) th = resolver_con (L_scaled s2) th).
  { intros th. rewrite <- (Run.resolver_con_delete_h _ _ _ (L_scaled s1)).
    rewrite <- (Run.resolver_con_delete_h _ _ _ (L_scaled s2)). now rewrite Hdel. }
  rewrite !Run.resolver_cinematica_run, !Run.calcular_trayectoria_run. cbn [fst].
  split; [apply Hcon |].
  destruct (thetas n_puntos) as [ts | e]; [| reflexivity].
  f_equal. apply list_fmap_ext. intros _ th _. now rewrite Hcon.
Qed.

End SolverClaims.

(** C10, an instance: the initial mechanism and the one whose ternary 2
    ("h") is set to 100 mm differ in their scaled lengths, yet solve alike. *)
Lemma solver_independent_of_h_witness :
  let s1 := MecanismoJansen.init in
  let s2 := snd (MecanismoJansen.actualizar_longitud "h" 100 MecanismoJansen.init) in
  (MecanismoJansen.L_scaled s1 ≠ MecanismoJansen.L_scaled s2 ∧
   delete "h" (MecanismoJansen.L_scaled s1) = delete "h" (MecanismoJansen.L_scaled s2)) ∧
  (fst (MecanismoJansen.resolver_cinematica Examples.cos_table Examples.sin_table
          Examples.fsolve_stalls 0 s1)
   = fst (MecanismoJansen.resolver_cinematica Examples.cos_table Examples.sin_table
          Examples.fsolve_stalls 0 s2) ∧
   fst (MecanismoJansen.calcular_trayectoria Examples.cos_table Examples.sin_table
          Examples.fsolve_stalls 3 s1)
   = fst (MecanismoJansen.calcular_trayectoria Examples.cos_table Examples.sin_table
          Examples.fsolve_stalls 3 s2)).
Proof.
  cbv zeta. split; [split |].
  - intros H. apply (f_equal (fun m => default 0%float (m !! "h"))) in H.
    float_discriminate H.
  - vm_compute. reflexivity.
  - apply (solver_independent_of_h Examples.cos_table Examples.sin_table
             Examples.fsolve_stalls MecanismoJansen.init
             (snd (MecanismoJansen.actualizar_longitud "h" 100 MecanismoJansen.init))).
    vm_compute. reflexivity.
Defined.

Section PipelineClaims.
Import MecanismoJansen.

Variables np_cos np_sin : float -> float.
Variable scipy_fsolve : root_finder.

Local Abbreviation resolver_con := (resolver_con np_cos np_sin scipy_fsolve).
Local Abbreviation resolver_cinematica := (resolver_cinematica np_cos np_sin scipy_fsolve).

(** When the dict holds the ten lengths, each subscription of the solver
    returns the length the specification names. *)
Lemma resolver_con_lengths (Ls : gmap string float) (ls : Spec.lengths) (theta : float) :
  Spec.lengths_of Ls = Some ls ->
  resolver_con Ls theta =
  Spec.joint_pipeline np_cos np_sin (fsolve scipy_fsolve) ls theta.
Proof.
  unfold Spec.lengths_of. intros H.
  destruct (Ls !! "a") as [a |] eqn:Ha; [| discriminate].
  destruct (Ls !! "b") as [b |] eqn:Hb; [| discriminate].
  destruct (Ls !! "c") as [c |] eqn:Hc; [| discriminate].
  destruct (Ls !! "d") as [d |] eqn:Hd; [| discriminate].
  destruct (Ls !! "e") as [e |] eqn:He; [| discriminate].
  destruct (Ls !! "f") as [f |] eqn:Hf; [| discriminate].
  destruct (Ls !! "g") as [g |] eqn:Hg; [| discriminate].
  destruct (Ls !! "h") as [h |] eqn:Hh; [| discriminate].
  destruct (Ls !! "m") as [m |] eqn:Hm; [| discriminate].
  destruct (Ls !! "n") as [n |] eqn:Hn; [| discriminate].
  cbn in H. injection H as <-.
  unfold MecanismoJansen.resolver_con, getitem.
  rewrite Ha, Hb, Hc, Hd, He, Hf, Hg, Hm, Hn. reflexivity.
Qed.

(** C2: on an instance holding the ten scaled lengths, the solver computes
    its snapshot by the pipeline of the specification: A = (0,0),
    B = (offset_x, offset_y), C = A + crank·(cos θ, sin θ), then D, E and F
    each by root-finding on its two distance equations, from the
    prescribed initial guess, anchored on the points found before. *)
Theorem resolver_cinematica_is_pipeline (self : t) (ls : Spec.lengths) (theta : float) :
  Spec.lengths_of (L_scaled self) = Some ls ->
  resolver_cinematica theta self =
  (Spec.joint_pipeline np_cos np_sin (fsolve scipy_fsolve) ls theta, self).
Proof.
  intros Hls. rewrite Run.resolver_cinematica_run.
  now rewrite (resolver_con_lengths _ ls).
Qed.

(** C1, as the code has it: whatever flag the root-finder reports for D,
    E and F (converged or not) and whatever the residuals at the points it
    returns, the snapshot holds exactly those points, each later joint is
    solved from the earlier returned points, and the call returns without
    raising. *)
Theorem returned_iterates_are_kept (self : t) (ls : Spec.lengths) (theta : float)
    (rD rE rF : fsolve_result) :
  let A := (0, 0)%float in
  let B := (Spec.offset_x ls, Spec.offset_y ls) in
  let C := np.add A ((Spec.crank_length ls * np_cos theta)%float,
                     (Spec.crank_length ls * np_sin theta)%float) in
  Spec.lengths_of (L_scaled self) = Some ls ->
  scipy_fsolve (ecuaciones_D C B (Spec.coupler1_length ls) (Spec.coupler2_length ls))
               (np.add C (Spec.coupler1_length ls, 0%float)) = Ok rD ->
  scipy_fsolve (ecuaciones_E (sol_x rD) B (Spec.coupler3_length ls) (Spec.rocker1_length ls))
               (np.add (sol_x rD)
                  (Spec.coupler3_length ls, (- Spec.coupler3_length ls / 2)%float)) = Ok rE ->
  scipy_fsolve (ecuaciones_F (sol_x rE) (sol_x rD) (Spec.rocker2_length ls) (Spec.ternary1_length ls))
               (np.add (sol_x rE)
                  (Spec.rocker2_length ls, (- Spec.rocker2_length ls)%float)) = Ok rF ->
  resolver_cinematica theta self =
  (Ok (mk_puntos A B C (sol_x rD) (sol_x rE) (sol_x rF)), self).
Proof.
  intros A B C Hls HD HE HF.
  rewrite Run.resolver_cinematica_run, (resolver_con_lengths _ ls theta Hls).
  unfold Spec.joint_pipeline, fsolve.
  change (Spec.two_distances ?P ?r ?Q ?s) with (ecuaciones_D P Q r s).
  fold A B C. cbn [mbind outcome_bind]. rewrite HD. cbn [mbind outcome_bind mret outcome_ret].
  change (ecuaciones_D ?P ?Q ?r ?s) with (ecuaciones_E P Q r s).
  rewrite HE. cbn [mbind outcome_bind mret outcome_ret].
  change (ecuaciones_E ?P ?Q ?r ?s) with (ecuaciones_F P Q r s).
  rewrite HF. reflexivity.
Qed.

End PipelineClaims.

(** C2, an instance: the initial mechanism (scale 5) at crank angle 0. *)
Lemma resolver_cinematica_is_pipeline_witness :
  let ls := Spec.mk_lengths 190 207.5 196.5 200.5 279 197 183.5 328.5 39 125 in
  Spec.lengths_of (MecanismoJansen.L_scaled MecanismoJansen.init) = Some ls ∧
  MecanismoJansen.resolver_cinematica Examples.cos_table Examples.sin_table
    Examples.fsolve_stalls 0 MecanismoJansen.init
  = (Spec.joint_pipeline Examples.cos_table Examples.sin_table
       (MecanismoJansen.fsolve Examples.fsolve_stalls) ls 0,
     MecanismoJansen.init).
Proof.
  cbv zeta. split; [vm_compute; reflexivity |].
  apply (resolver_cinematica_is_pipeline Examples.cos_table Examples.sin_table
           Examples.fsolve_stalls MecanismoJansen.init).
  vm_compute. reflexivity.
Defined.

(** C1, an instance: the mechanism with both couplers of D at 10 mm
    (50 after scaling) and crank angle 0, with a root-finder that reports
    failure (flag 5) at each of the three joints. *)
Lemma returned_iterates_are_kept_witness :
  let ls := Spec.mk_lengths 190 50 50 200.5 279 197 183.5 328.5 39 125 in
  let rD := {| sol_x := (240, 0)%float; sol_ier := 5 |} in
  let rE := {| sol_x := (440.5, -100.25)%float; sol_ier := 5 |} in
  let rF := {| sol_x := (637.5, -297.25)%float; sol_ier := 5 |} in
  (Spec.lengths_of (MecanismoJansen.L_scaled Examples.short_couplers) = Some ls ∧
   converged rD = false ∧ converged rE = false ∧ converged rF = false) ∧
  MecanismoJansen.resolver_cinematica Examples.cos_table Examples.sin_table
    Examples.fsolve_stalls 0 Examples.short_couplers
  = (Ok (MecanismoJansen.mk_puntos (0, 0)%float (39, 125)%float
           (np.add (0, 0)%float ((190 * Examples.cos_table 0)%float,
                                 (190 * Examples.sin_table 0)%float))
           (sol_x rD) (sol_x rE) (sol_x rF)),
     Examples.short_couplers).
Proof.
  cbv zeta. split; [repeat split; vm_compute; reflexivity |].
  apply (returned_iterates_are_kept Examples.cos_table Examples.sin_table
           Examples.fsolve_stalls Examples.short_couplers
           (Spec.mk_lengths 190 50 50 200.5 279 197 183.5 328.5 39 125) 0
           {| sol_x := (240, 0)%float; sol_ier := 5 |}
           {| sol_x := (440.5, -100.25)%float; sol_ier := 5 |}
           {| sol_x := (637.5, -297.25)%float; sol_ier := 5 |});
    vm_compute; reflexivity.
Defined.

(** C1, counterexample: with both couplers of D at 10 mm the circles of
    radius 50 around C = (190, 0) and B = (39, 125) cannot meet.  The
    root-finder stops without converging at (240, 0), where the second
    residual is about 186.7, far above 1e-6 times the scale; the snapshot
    nevertheless carries (240, 0) as D, and E and F computed from it: no
    joint is NaN. *)
Lemma unconverged_joint_is_not_undefined :
  let pts := MecanismoJansen.mk_puntos (0, 0)%float (39, 125)%float (190, 0)%float
               (240, 0)%float (440.5, -100.25)%float (637.5, -297.25)%float in
  let residuals_D := MecanismoJansen.ecuaciones_D (190, 0)%float (39, 125)%float 50 50 in
  (∃ r, Examples.fsolve_stalls residuals_D (240, 0)%float = Ok r ∧
        converged r = false ∧
        (1e-6 * 5 <? PrimFloat.abs (snd (residuals_D (sol_x r))))%float = true) ∧
  fst (MecanismoJansen.resolver_cinematica Examples.cos_table Examples.sin_table
         Examples.fsolve_stalls 0 Examples.short_couplers) = Ok pts ∧
  Spec.defined (MecanismoJansen.D pts) = true ∧
  Spec.defined (MecanismoJansen.E pts) = true ∧
  Spec.defined (MecanismoJansen.F pts) = true.
Proof.
  cbv zeta. split; [eexists; repeat split; vm_compute; reflexivity |].
  repeat split; vm_compute; reflexivity.
Qed.

Section PeriodicityClaims.
Import MecanismoJansen.

Variables np_cos np_sin : float -> float.
Variable scipy_fsolve : root_finder.

Local Abbreviation resolver_con := (resolver_con np_cos np_sin scipy_fsolve).
Local Abbreviation resolver_cinematica := (resolver_cinematica np_cos np_sin scipy_fsolve).

(** C7, as the code has it: the crank angle enters the solver only through
    [np.cos(theta)] and [np.sin(theta)]; two angles at which both library
    functions return the same binary64 values give the same snapshot. *)
Theorem angle_enters_through_cos_sin (self : t) (theta1 theta2 : float) :
  np_cos theta1 = np_cos theta2 ->
  np_sin theta1 = np_sin theta2 ->
  resolver_cinematica theta1 self = resolver_cinematica theta2 self.
Proof.
  intros Hcos Hsin. rewrite !Run.resolver_cinematica_run. f_equal.
  unfold MecanismoJansen.resolver_con. now rewrite Hcos, Hsin.
Qed.

(** The crank tip of a returned snapshot. *)
Lemma resolver_con_crank_tip (Ls : gmap string float) (theta La : float) (pts : puntos) :
  Ls !! "a" = Some La ->
  resolver_con Ls theta = Ok pts ->
  C pts = np.add (0, 0)%float ((La * np_cos theta)%float, (La * np_sin theta)%float).
Proof.
  intros Ha. unfold MecanismoJansen.resolver_con, getitem, fsolve. rewrite Ha.
  repeat match goal with
         | |- context [?m !! ?k] => destruct (m !! k); cbn; [| discriminate]
         | |- context [scipy_fsolve ?f ?x] => destruct (scipy_fsolve f x); cbn; [| discriminate]
         end.
  intros [= <-]. reflexivity.
Qed.

(** Adding 2π absorbs a small angle: 0 and 2^-70 are sent to the same
    binary64 value.  So whenever the sine of the library separates 0 from
    2^-70, as any accurate sine does, the initial mechanism cannot solve
    alike at θ and θ + 2π for both of these angles. *)
Lemma absorbed_angle_breaks_periodicity (p0 pt : puntos) :
  np_sin 0 = 0%float ->
  np_sin Examples.tiny_angle = Examples.tiny_angle ->
  fst (resolver_cinematica 0 init) = Ok p0 ->
  fst (resolver_cinematica Examples.tiny_angle init) = Ok pt ->
  ¬ (fst (resolver_cinematica (0 + 2 * np.pi) init) = Ok p0 ∧
     fst (resolver_cinematica (Examples.tiny_angle + 2 * np.pi) init) = Ok pt).
Proof.
  intros Hs0 Hst H0 Ht [H0' Ht'].
  change (Examples.tiny_angle + 2 * np.pi)%float with (0 + 2 * np.pi)%float in Ht'.
  rewrite H0' in Ht'. injection Ht' as Heq.
  rewrite Run.resolver_cinematica_run in H0, Ht. cbn [fst] in H0, Ht.
  assert (Ha : L_scaled init !! "a" = Some 190%float) by (vm_compute; reflexivity).
  pose proof (resolver_con_crank_tip _ _ _ _ Ha H0) as C0.
  pose proof (resolver_con_crank_tip _ _ _ _ Ha Ht) as Ct.
  rewrite Heq, Ct, Hs0, Hst in C0.
  apply (f_equal snd) in C0. cbn in C0. float_discriminate C0.
Qed.

End PeriodicityClaims.

(** C7, an instance: two functions that take the same values at the
    binary64 values of 2π and 4π, as the tabulated ones do. *)
Lemma angle_enters_through_cos_sin_witness :
  let theta1 := (2 * np.pi)%float in
  let theta2 := (2 * np.pi + 2 * np.pi)%float in
  (Examples.cos_table theta1 = Examples.cos_table theta2 ∧
   Examples.sin_table theta1 = Examples.sin_table theta2) ∧
  MecanismoJansen.resolver_cinematica Examples.cos_table Examples.sin_table
    Examples.fsolve_stalls theta1 MecanismoJansen.init
  = MecanismoJansen.resolver_cinematica Examples.cos_table Examples.sin_table
    Examples.fsolve_stalls theta2 MecanismoJansen.init.
Proof.
  cbv zeta. split; [split; vm_compute; reflexivity |].
  apply (angle_enters_through_cos_sin Examples.cos_table Examples.sin_table
           Examples.fsolve_stalls MecanismoJansen.init);
    vm_compute; reflexivity.
Defined.

(** C7, counterexample: crank angle 0 on the initial mechanism.  In
    binary64 0 + 2π is the double nearest 2π, whose sine is about
    -2.449e-16 and not 0: the crank tip moves from (190, 0) to
    (190, -4.65e-14), and the snapshot with it. *)
Lemma periodicity_fails_at_zero :
  (0 <=? 0)%float = true ∧ (0 <? 2 * np.pi)%float = true ∧
  fst (MecanismoJansen.resolver_cinematica Examples.cos_table Examples.sin_table
         Examples.fsolve_stalls (0 + 2 * np.pi) MecanismoJansen.init)
  ≠ fst (MecanismoJansen.resolver_cinematica Examples.cos_table Examples.sin_table
         Examples.fsolve_stalls 0 MecanismoJansen.init).
Proof.
  repeat split; try (vm_compute; reflexivity).
  intros H.
  apply (f_equal (fun o => match o with
                           | Ok p => snd (MecanismoJansen.C p)
                           | Raise _ => 0%float
                           end)) in H.
  float_discriminate H.
Qed.

(** * The trajectory sweep *)

(** [np.linspace] returns for every count that is not negative, with as
    many entries as asked. *)
Lemma linspace_length (start stop : float) (num : Z) :
  (0 ≤ num)%Z ->
  ∃ ts, np.linspace start stop num = Ok ts ∧ length ts = Z.to_nat num.
Proof.
  intros Hnum. unfold np.linspace.
  destruct (Z.ltb_spec num 0) as [Hneg | _]; [lia |].
  eexists. split; [reflexivity |].
  destruct (1 <? num)%Z; rewrite ?length_insert, length_fmap;
    destruct (0 <? num - 1)%Z; try destruct (_ =? _)%float;
    rewrite !length_fmap, length_seq; reflexivity.
Qed.

(** With two entries or more the last one is [stop] itself. *)
Lemma linspace_endpoint (start stop : float) (num : Z) (ts : list float) :
  (1 < num)%Z ->
  np.linspace start stop num = Ok ts ->
  ts !! (Z.to_nat num - 1)%nat = Some stop.
Proof.
  intros Hnum Hts.
  destruct (linspace_length start stop num) as (ts' & Hts' & Hlen); [lia |].
  rewrite Hts in Hts'. injection Hts' as <-.
  revert Hts. unfold np.linspace.
  destruct (Z.ltb_spec num 0) as [Hneg | _]; [lia |].
  destruct (Z.ltb_spec 1 num) as [_ | Hle]; [| lia].
  intros [= <-]. apply list_lookup_insert_eq.
  rewrite length_insert in Hlen. lia.
Qed.

(** The entries before the last are the multiples of the step
    (stop - start) / (num - 1), shifted by [start]. *)
Lemma linspace_inner (start stop : float) (num : Z) (ts : list float) (i : nat) :
  (1 < num)%Z ->
  ((stop - start) / np.float_of_Z (num - 1) =? 0)%float = false ->
  np.linspace start stop num = Ok ts ->
  (i < Z.to_nat num - 1)%nat ->
  ts !! i =
  Some (np.float_of_Z (Z.of_nat i) * ((stop - start) / np.float_of_Z (num - 1)) + start)%float.
Proof.
  intros Hnum Hstep Hts Hi. revert Hts. unfold np.linspace.
  destruct (Z.ltb_spec num 0) as [Hneg | _]; [lia |].
  destruct (Z.ltb_spec 1 num) as [_ | Hle]; [| lia].
  destruct (Z.ltb_spec 0 (num - 1)) as [_ | Hle]; [| lia].
  rewrite Hstep. intros [= <-].
  rewrite list_lookup_insert_ne by lia.
  rewrite !list_lookup_fmap, lookup_seq_lt by lia. reflexivity.
Qed.

Section SweepClaims.
Import MecanismoJansen.

Variables np_cos np_sin : float -> float.
Variable scipy_fsolve : root_finder.

Local Abbreviation resolver_con := (resolver_con np_cos np_sin scipy_fsolve).
Local Abbreviation resolver_cinematica := (resolver_cinematica np_cos np_sin scipy_fsolve).
Local Abbreviation calcular_trayectoria := (calcular_trayectoria np_cos np_sin scipy_fsolve).

(** C3, as the code has it: for a count that is not negative the sweep
    generates exactly that many crank angles; with two or more, the last
    one is 2π itself (the interval is closed, both ends are sampled) and
    the earlier ones are the multiples i·step of step = 2π/(count-1); the
    solver runs once per angle and the feet (or NaN pairs) come back in
    the order of the angles. *)
Theorem sweep_angles_and_samples (self : t) (n_puntos : Z) :
  (0 ≤ n_puntos)%Z ->
  ∃ ts : list float,
    thetas n_puntos = Ok ts ∧
    length ts = Z.to_nat n_puntos ∧
    ((1 < n_puntos)%Z ->
       ts !! (Z.to_nat n_puntos - 1)%nat = Some (2 * np.pi)%float ∧
       let step := ((2 * np.pi - 0) / np.float_of_Z (n_puntos - 1))%float in
       (step =? 0)%float = false ->
       ∀ i : nat, (i < Z.to_nat n_puntos - 1)%nat ->
         ts !! i = Some (np.float_of_Z (Z.of_nat i) * step + 0)%float) ∧
    calcular_trayectoria n_puntos self =
    (Ok ((fun theta => Spec.foot_or_undefined (fst (resolver_cinematica theta self))) <$> ts),
     self).
Proof.
  intros Hn. unfold thetas.
  destruct (linspace_length 0 (2 * np.pi) n_puntos Hn) as (ts & Hts & Hlen).
  exists ts. split; [exact Hts |]. split; [exact Hlen |]. split.
  - intros Hgt. split.
    + now apply (linspace_endpoint 0 (2 * np.pi) n_puntos).
    + intros Hstep i Hi.
      now apply (linspace_inner 0 (2 * np.pi) n_puntos).
  - rewrite Run.calcular_trayectoria_run. unfold thetas. rewrite Hts. reflexivity.
Qed.



End SweepClaims.

(** C3, an instance: the default sweep of 360 angles. *)
Lemma sweep_angles_and_samples_witness :
  (0 ≤ 360)%Z ∧
  ∃ ts : list float,
    MecanismoJansen.thetas 360 = Ok ts ∧
    length ts = Z.to_nat 360 ∧
    ((1 < 360)%Z ->
       ts !! (Z.to_nat 360 - 1)%nat = Some (2 * np.pi)%float ∧
       let step := ((2 * np.pi - 0) / np.float_of_Z (360 - 1))%float in
       (step =? 0)%float = false ->
       ∀ i : nat, (i < Z.to_nat 360 - 1)%nat ->
         ts !! i = Some (np.float_of_Z (Z.of_nat i) * step + 0)%float) ∧
    MecanismoJansen.calcular_trayectoria Examples.cos_table Examples.sin_table
      Examples.fsolve_stalls 360 MecanismoJansen.init =
    (Ok ((fun theta =>
            Spec.foot_or_undefined
              (fst (MecanismoJansen.resolver_cinematica Examples.cos_table
                      Examples.sin_table Examples.fsolve_stalls theta
                      MecanismoJansen.init))) <$> ts),
     MecanismoJansen.init).
Proof.
  split; [lia |].
  apply (sweep_angles_and_samples Examples.cos_table Examples.sin_table
           Examples.fsolve_stalls MecanismoJansen.init 360).
  lia.
Defined.

(** C3, counterexample: a sweep of 4 angles ends at 2π itself, which is
    not below 2π, and its second angle 2π/3 lies beyond 2π/4, the second
    of four angles evenly spaced over [0, 2π). *)
Lemma sweep_includes_two_pi :
  ∃ ts t1,
    MecanismoJansen.thetas 4 = Ok ts ∧
    ts !! 3%nat = Some (2 * np.pi)%float ∧
    (2 * np.pi <? 2 * np.pi)%float = false ∧
    ts !! 1%nat = Some t1 ∧
    (2 * np.pi / 4 <? t1)%float = true.
Proof.
  do 2 eexists. repeat split; vm_compute; reflexivity.
Qed.

(** The default sweep ends at 2π as well. *)
Lemma default_sweep_ends_at_two_pi :
  ∃ ts, MecanismoJansen.thetas 360 = Ok ts ∧ ts !! 359%nat = Some (2 * np.pi)%float.
Proof. eexists. split; vm_compute; reflexivity. Qed.


(** The sweep of that instance, evaluated.  At angle 0 the three
    root-finder calls stop unconverged and the entry is the foot they
    lead to; at angle 2π the first call raises and the entry is the NaN
    pair; both entries are there. *)
Lemma sweep_of_mixed_solves :
  (∃ pts, fst (MecanismoJansen.resolver_cinematica Examples.cos_table Examples.sin_table
                 Examples.fsolve_stalls_or_raises 0 MecanismoJansen.init) = Ok pts ∧
          MecanismoJansen.F pts = (795, -297.25)%float) ∧
  fst (MecanismoJansen.resolver_cinematica Examples.cos_table Examples.sin_table
         Examples.fsolve_stalls_or_raises (2 * np.pi) MecanismoJansen.init)
  = Raise RuntimeWarning ∧
  MecanismoJansen.calcular_trayectoria Examples.cos_table Examples.sin_table
    Examples.fsolve_stalls_or_raises 2 MecanismoJansen.init
  = (Ok [(795, -297.25)%float; (np.nan, np.nan)], MecanismoJansen.init).
Proof.
  split; [eexists; split; vm_compute; reflexivity |].
  split; vm_compute; reflexivity.
Qed.


(** Three angles on the initial mechanism with a root-finder that raises at
    every solve: every entry is the NaN pair, and the three entries are all
    there. *)
Lemma sweep_of_raising_solves :
  MecanismoJansen.calcular_trayectoria Examples.cos_table Examples.sin_table
    Examples.fsolve_raises 3 MecanismoJansen.init
  = (Ok [(np.nan, np.nan); (np.nan, np.nan); (np.nan, np.nan)], MecanismoJansen.init).
Proof. vm_compute. reflexivity. Qed.

(** A dict that lacks a length makes the solve raise [KeyError]; the sweep
    records NaN pairs all the same. *)
Lemma sweep_of_missing_length :
  let self := MecanismoJansen.mk MecanismoJansen.L_original 5 ∅ in
  fst (MecanismoJansen.resolver_cinematica Examples.cos_table Examples.sin_table
         Examples.fsolve_stalls 0 self) = Raise (KeyError "m") ∧
  fst (MecanismoJansen.calcular_trayectoria Examples.cos_table Examples.sin_table
         Examples.fsolve_stalls 2 self) = Ok [(np.nan, np.nan); (np.nan, np.nan)].
Proof. split; vm_compute; reflexivity. Qed.

(** * The gait figures *)

(** A left fold with a binary operation that keeps its first argument
    when it compares at least as well as the second or when the second is
    NaN, as [np.fmax] and [np.fmin] do, returns the best of the values
    that are not NaN, and NaN when there is none. *)
Section Reduce.

Variable rel : float -> float -> bool.
Variable f : float -> float -> float.

Hypothesis rel_refl : ∀ x, np.isnan x = false → rel x x = true.
Hypothesis rel_total :
  ∀ x y, np.isnan x = false → np.isnan y = false → rel x y = false → rel y x = true.
Hypothesis rel_trans : ∀ x y z, rel x y = true → rel y z = true → rel x z = true.
Hypothesis rel_nan_l : ∀ x y, np.isnan x = true → rel x y = false.
Hypothesis rel_nan_r : ∀ x y, np.isnan y = true → rel x y = false.
Hypothesis f_keeps : ∀ a b, f a b = if rel a b || np.isnan b then a else b.

Local Abbreviation best l m :=
  (Spec.best_of_defined rel l m).

Lemma rel_defined (x y : float) :
  rel x y = true -> np.isnan x = false ∧ np.isnan y = false.
Proof.
  intros Hrel. split.
  - destruct (np.isnan x) eqn:Hx; [| reflexivity].
    rewrite (rel_nan_l x y Hx) in Hrel. discriminate.
  - destruct (np.isnan y) eqn:Hy; [| reflexivity].
    rewrite (rel_nan_r x y Hy) in Hrel. discriminate.
Qed.

(** A value that the best one beats can be added behind the head. *)
Lemma best_insert (x : float) (l : list float) (y m : float) :
  best (x :: l) m ->
  (np.isnan y = false → rel m y = true) ->
  best (x :: y :: l) m.
Proof.
  intros (Hin & Hnan & Hall) Hy. split; [| split; [exact Hnan |]].
  - apply elem_of_cons in Hin as [-> | Hin]; [left | do 2 right]; done.
  - intros z Hz Hznan.
    apply elem_of_cons in Hz as [-> | Hz]; [apply Hall; [left |]; done |].
    apply elem_of_cons in Hz as [-> | Hz]; [now apply Hy |].
    apply Hall; [now right | done].
Qed.

(** ... or in front of the list. *)
Lemma best_push (y : float) (l : list float) (m : float) :
  best l m ->
  (np.isnan y = false → rel m y = true) ->
  best (y :: l) m.
Proof.
  intros (Hin & Hnan & Hall) Hy. split; [now right | split; [exact Hnan |]].
  intros z Hz Hznan.
  apply elem_of_cons in Hz as [-> | Hz]; [now apply Hy | now apply Hall].
Qed.

Lemma foldl_best (rest : list float) (acc : float) :
  if Spec.some_defined (acc :: rest)
  then best (acc :: rest) (foldl f acc rest)
  else np.isnan (foldl f acc rest) = true.
Proof.
  revert acc. induction rest as [| x rest IH]; intros acc.
  - cbn. destruct (np.isnan acc) eqn:Hacc; cbn; [reflexivity |].
    split; [left |]; split; [done |].
    intros z Hz _. apply list_elem_of_singleton in Hz as ->. now apply rel_refl.
  - cbn [foldl]. specialize (IH (f acc x)). rewrite f_keeps in IH |- *.
    destruct (rel acc x) eqn:Hrel; cbn [orb] in *.
    + (* kept: the accumulator compares at least as well as [x] *)
      destruct (rel_defined _ _ Hrel) as [Hacc Hx].
      assert (Hs : ∀ l, Spec.some_defined (acc :: l) = true)
        by (intros l; cbn; now rewrite Hacc).
      rewrite Hs in IH |- *.
      apply best_insert; [exact IH |]. intros _.
      destruct IH as (_ & _ & Hall).
      apply rel_trans with acc; [apply Hall; [left |]; done | exact Hrel].
    + destruct (np.isnan x) eqn:Hx.
      * (* kept: [x] is NaN and counts for nothing *)
        assert (Hs : Spec.some_defined (acc :: x :: rest) = Spec.some_defined (acc :: rest))
          by (cbn; now rewrite Hx).
        rewrite Hs. destruct (Spec.some_defined (acc :: rest)); [| exact IH].
        apply best_insert; [exact IH |]. intros Hx'. congruence.
      * (* replaced: [x] is a value and the accumulator does not beat it *)
        assert (Hs : Spec.some_defined (x :: rest) = true) by (cbn; now rewrite Hx).
        assert (Hs' : Spec.some_defined (acc :: x :: rest) = true)
          by (cbn; rewrite Hx; cbn; apply orb_true_r).
        rewrite Hs in IH. rewrite Hs'.
        apply best_push; [exact IH |]. intros Hacc.
        destruct IH as (_ & _ & Hall).
        apply rel_trans with x; [apply Hall; [left |]; done |].
        now apply rel_total.
Qed.

End Reduce.

(** [np.nanmax]: the largest of the values that are not NaN; NaN when
    every value is. *)
Lemma nanmax_spec (l : list float) (r : float) :
  np.nanmax l = Ok r ->
  if Spec.some_defined l then Spec.max_of_defined l r else np.isnan r = true.
Proof.
  destruct l as [| x rest]; [discriminate |]. intros [= <-].
  apply (foldl_best (fun a b => (b <=? a)%float) np.fmax).
  - apply FloatFacts.leb_refl.
  - intros a b Ha Hb. now apply FloatFacts.leb_total.
  - intros a b c Hab Hbc. now apply FloatFacts.leb_trans with b.
  - intros a b Ha. now apply FloatFacts.leb_nan_r.
  - intros a b Hb. now apply FloatFacts.leb_nan_l.
  - reflexivity.
Qed.

(** [np.nanmin]: the smallest of the values that are not NaN; NaN when
    every value is. *)
Lemma nanmin_spec (l : list float) (r : float) :
  np.nanmin l = Ok r ->
  if Spec.some_defined l then Spec.min_of_defined l r else np.isnan r = true.
Proof.
  destruct l as [| x rest]; [discriminate |]. intros [= <-].
  apply (foldl_best (fun a b => (a <=? b)%float) np.fmin).
  - apply FloatFacts.leb_refl.
  - intros a b Ha Hb. now apply FloatFacts.leb_total.
  - intros a b c. apply FloatFacts.leb_trans.
  - intros a b Ha. now apply FloatFacts.leb_nan_l.
  - intros a b Hb. now apply FloatFacts.leb_nan_r.
  - reflexivity.
Qed.

(** C5, as the code has it: on a trajectory with at least one sample the
    call returns.  When the x column has an entry that is not NaN, the step
    length is (max x - min x) / 10, the maximum and the minimum taken over
    the x entries that are not NaN (NaN entries are ignored, not read as
    zero); when it has none, the step length is NaN.  Likewise the step
    height is max y / 10 over the y entries that are not NaN when there is
    one, and NaN when there is none.  The number of defined samples plays
    no part beyond that: one is enough for the figures to be computed
    from it. *)
Theorem gait_figures_ignore_nan (trayectoria : list np.array2) :
  trayectoria ≠ [] ->
  ∃ info,
    SimuladorJansenGUI.actualizar_informacion trayectoria = Ok info ∧
    (if Spec.some_defined (fst <$> trayectoria)
     then ∃ xmax xmin,
            Spec.max_of_defined (fst <$> trayectoria) xmax ∧
            Spec.min_of_defined (fst <$> trayectoria) xmin ∧
            SimuladorJansenGUI.longitud_paso info = ((xmax - xmin) / 10)%float
     else np.isnan (SimuladorJansenGUI.longitud_paso info) = true) ∧
    (if Spec.some_defined (snd <$> trayectoria)
     then ∃ ymax,
            Spec.max_of_defined (snd <$> trayectoria) ymax ∧
            SimuladorJansenGUI.altura_paso info = (ymax / 10)%float
     else np.isnan (SimuladorJansenGUI.altura_paso info) = true).
Proof.
  intros Hne. destruct trayectoria as [| p rest]; [done |].
  unfold SimuladorJansenGUI.actualizar_informacion.
  destruct (np.nanmax (fst <$> p :: rest)) as [xmax |] eqn:Hxmax; [| discriminate].
  destruct (np.nanmin (fst <$> p :: rest)) as [xmin |] eqn:Hxmin; [| discriminate].
  destruct (np.nanmax (snd <$> p :: rest)) as [ymax |] eqn:Hymax; [| discriminate].
  eexists. split; [reflexivity |].
  cbn [SimuladorJansenGUI.longitud_paso SimuladorJansenGUI.altura_paso].
  apply nanmax_spec in Hxmax. apply nanmin_spec in Hxmin. apply nanmax_spec in Hymax.
  split.
  - destruct (Spec.some_defined (fst <$> p :: rest)).
    + exists xmax, xmin. repeat split; first [apply Hxmax | apply Hxmin].
    + now apply FloatFacts.div_nan_l, FloatFacts.sub_nan_l.
  - destruct (Spec.some_defined (snd <$> p :: rest)).
    + exists ymax. split; [exact Hymax | reflexivity].
    + now apply FloatFacts.div_nan_l.
Qed.

(** C5, an instance: one undefined and one defined sample. *)
Lemma gait_figures_ignore_nan_witness :
  let trayectoria := [(np.nan, np.nan); (30, 40)%float] in
  trayectoria ≠ [] ∧
  ∃ info,
    SimuladorJansenGUI.actualizar_informacion trayectoria = Ok info ∧
    (if Spec.some_defined (fst <$> trayectoria)
     then ∃ xmax xmin,
            Spec.max_of_defined (fst <$> trayectoria) xmax ∧
            Spec.min_of_defined (fst <$> trayectoria) xmin ∧
            SimuladorJansenGUI.longitud_paso info = ((xmax - xmin) / 10)%float
     else np.isnan (SimuladorJansenGUI.longitud_paso info) = true) ∧
    (if Spec.some_defined (snd <$> trayectoria)
     then ∃ ymax,
            Spec.max_of_defined (snd <$> trayectoria) ymax ∧
            SimuladorJansenGUI.altura_paso info = (ymax / 10)%float
     else np.isnan (SimuladorJansenGUI.altura_paso info) = true).
Proof.
  cbv zeta. split; [discriminate |].
  apply (gait_figures_ignore_nan [(np.nan, np.nan); (30, 40)%float]).
  discriminate.
Defined.

(** C5, counterexample: a trajectory with a single defined sample, next to
    an undefined one.  Fewer than two samples are defined, yet the step
    length is 0 cm and the step height 4 cm, neither of them NaN. *)
Lemma one_defined_sample_gives_figures :
  let trayectoria := [(np.nan, np.nan); (30, 40)%float] in
  (length (filter (fun p => Spec.defined p = true) trayectoria) < 2)%nat ∧
  ∃ info,
    SimuladorJansenGUI.actualizar_informacion trayectoria = Ok info ∧
    SimuladorJansenGUI.longitud_paso info = 0%float ∧
    SimuladorJansenGUI.altura_paso info = 4%float ∧
    np.isnan (SimuladorJansenGUI.longitud_paso info) = false ∧
    np.isnan (SimuladorJansenGUI.altura_paso info) = false.
Proof.
  cbv zeta. split; [vm_compute; lia |].
  eexists. repeat split; vm_compute; reflexivity.
Qed.

(** With no defined sample at all both figures are NaN. *)
Lemma no_defined_sample_gives_nan :
  ∃ info,
    SimuladorJansenGUI.actualizar_informacion [(np.nan, np.nan); (np.nan, np.nan)] = Ok info ∧
    np.isnan (SimuladorJansenGUI.longitud_paso info) = true ∧
    np.isnan (SimuladorJansenGUI.altura_paso info) = true.
Proof. eexists. repeat split; vm_compute; reflexivity. Qed.

(** The converse does not hold: a figure computed from defined entries can
    be NaN as well.  With an infinite x entry the largest and the smallest
    defined x are the same infinity, and their difference is NaN. *)
Lemma infinite_sample_gives_nan_length :
  let trayectoria := [(infinity, 1)%float] in
  Spec.some_defined (fst <$> trayectoria) = true ∧
  ∃ info,
    SimuladorJansenGUI.actualizar_informacion trayectoria = Ok info ∧
    np.isnan (SimuladorJansenGUI.longitud_paso info) = true ∧
    SimuladorJansenGUI.altura_paso info = 0.1%float.
Proof.
  cbv zeta. split; [vm_compute; reflexivity |].
  eexists. repeat split; vm_compute; reflexivity.
Qed.

(** * Further properties of the mechanism *)

(** Along the edits the window allows, the scaled lengths stay the raw
    ones times the scale factor and no identifier goes missing. *)
Lemma alcanzable_lengths (s : MecanismoJansen.t) :
  Ventana.alcanzable s ->
  consistente s ∧
  is_Some (Spec.lengths_of (MecanismoJansen.L s)) ∧
  is_Some (Spec.lengths_of (MecanismoJansen.L_scaled s)).
Proof.
  induction 1 as [| clave valor s Hclave Hs (Hc & HL & HLs)
                  | valor s Hs (Hc & HL & HLs)].
  - split; [reflexivity |]. split; apply init_has_lengths.
  - destruct (setters_keep_lengths clave valor s HL) as (H1 & H2 & _ & _).
    unfold SimuladorJansenGUI.actualizar_longitud.
    split; [| split; [exact H1 | exact H2]].
    rewrite Run.actualizar_longitud_run. reflexivity.
  - destruct (setters_keep_lengths "a" valor s HL) as (_ & _ & H1 & H2).
    split; [| split; [exact H1 | exact H2]].
    rewrite Run.actualizar_escala_run. reflexivity.
Qed.

(** The spin boxes reach the eight links only: every other raw entry
    stays as [__init__] made it. *)
Lemma alcanzable_outside (s : MecanismoJansen.t) (k : string) :
  Ventana.alcanzable s ->
  k ∉ Ventana.nombres ->
  MecanismoJansen.L s !! k = MecanismoJansen.L_original !! k.
Proof.
  intros Hs Hk. induction Hs as [| clave valor s Hclave Hs IH | valor s Hs IH].
  - reflexivity.
  - unfold SimuladorJansenGUI.actualizar_longitud.
    rewrite Run.actualizar_longitud_run. cbn.
    rewrite lookup_insert_ne; [exact IH |]. intros ->. contradiction.
  - rewrite Run.actualizar_escala_run. cbn. exact IH.
Qed.

(** What the window can produce keeps three invariants: the scaled lengths
    are the raw ones times the scale factor, the ten identifiers are all
    there (raw and scaled), and every entry outside the eight links with a
    spin box is as [__init__] made it. *)
Theorem alcanzable_invariantes (s : MecanismoJansen.t) :
  Ventana.alcanzable s ->
  consistente s ∧
  is_Some (Spec.lengths_of (MecanismoJansen.L s)) ∧
  is_Some (Spec.lengths_of (MecanismoJansen.L_scaled s)) ∧
  ∀ k, k ∉ Ventana.nombres →
       MecanismoJansen.L s !! k = MecanismoJansen.L_original !! k.
Proof.
  intros Hs. destruct (alcanzable_lengths s Hs) as (Hc & HL & HLs).
  split; [exact Hc |]. split; [exact HL |]. split; [exact HLs |].
  intros k Hk. now apply alcanzable_outside.
Qed.

(** An instance: the mechanism with both couplers of D at 10 mm. *)
Lemma alcanzable_invariantes_witness :
  Ventana.alcanzable Examples.short_couplers ∧
  (consistente Examples.short_couplers ∧
   is_Some (Spec.lengths_of (MecanismoJansen.L Examples.short_couplers)) ∧
   is_Some (Spec.lengths_of (MecanismoJansen.L_scaled Examples.short_couplers)) ∧
   ∀ k, k ∉ Ventana.nombres →
        MecanismoJansen.L Examples.short_couplers !! k = MecanismoJansen.L_original !! k).
Proof.
  assert (H : Ventana.alcanzable Examples.short_couplers).
  { apply (Ventana.alc_longitud "c" 10); [set_solver |].
    apply (Ventana.alc_longitud "b" 10); [set_solver |].
    apply Ventana.alc_init. }
  split; [exact H |]. apply (alcanzable_invariantes Examples.short_couplers). exact H.
Defined.

(** Two writes to different links can be made in either order, and a
    write to a link can be swapped with a change of scale. *)
Theorem setters_commute (k1 k2 : string) (v1 v2 escala' : float) (self : MecanismoJansen.t) :
  k1 ≠ k2 ->
  snd (MecanismoJansen.actualizar_longitud k2 v2
         (snd (MecanismoJansen.actualizar_longitud k1 v1 self)))
  = snd (MecanismoJansen.actualizar_longitud k1 v1
         (snd (MecanismoJansen.actualizar_longitud k2 v2 self))) ∧
  snd (SimuladorJansenGUI.actualizar_escala escala'
         (snd (MecanismoJansen.actualizar_longitud k1 v1 self)))
  = snd (MecanismoJansen.actualizar_longitud k1 v1
         (snd (SimuladorJansenGUI.actualizar_escala escala' self))).
Proof.
  intros Hne.
  rewrite !Run.actualizar_longitud_run, !Run.actualizar_escala_run. cbn.
  rewrite (insert_insert_ne (MecanismoJansen.L self) k2 k1 v2 v1) by congruence.
  split; reflexivity.
Qed.

Lemma setters_commute_witness :
  "b" ≠ "c" ∧
  (snd (MecanismoJansen.actualizar_longitud "c" 10
          (snd (MecanismoJansen.actualizar_longitud "b" 20 MecanismoJansen.init)))
   = snd (MecanismoJansen.actualizar_longitud "b" 20
          (snd (MecanismoJansen.actualizar_longitud "c" 10 MecanismoJansen.init))) ∧
   snd (SimuladorJansenGUI.actualizar_escala 2
          (snd (MecanismoJansen.actualizar_longitud "b" 20 MecanismoJansen.init)))
   = snd (MecanismoJansen.actualizar_longitud "b" 20
          (snd (SimuladorJansenGUI.actualizar_escala 2 MecanismoJansen.init)))).
Proof.
  split; [discriminate |].
  apply (setters_commute "b" "c" 20 10 2 MecanismoJansen.init). discriminate.
Defined.

(** On an instance whose scaled lengths follow from the raw ones, a
    second write to a link overrides the first, and writing the previous
    length back, or the previous scale back, restores the instance as it
    was: the scaled lengths are recomputed from the raw ones each time,
    never scaled on top of themselves. *)
Theorem setters_undo (k : string) (v0 v : float) (self : MecanismoJansen.t) :
  consistente self ->
  MecanismoJansen.L self !! k = Some v0 ->
  snd (MecanismoJansen.actualizar_longitud k v0
         (snd (MecanismoJansen.actualizar_longitud k v self))) = self ∧
  snd (SimuladorJansenGUI.actualizar_escala (MecanismoJansen.escala self)
         (snd (SimuladorJansenGUI.actualizar_escala v self))) = self.
Proof.
  unfold consistente. intros Hc Hk.
  rewrite !Run.actualizar_longitud_run, !Run.actualizar_escala_run. cbn.
  rewrite insert_insert_eq, (insert_id _ _ _ Hk), <- Hc.
  destruct self; split; reflexivity.
Qed.

Lemma setters_undo_witness :
  (consistente MecanismoJansen.init ∧
   MecanismoJansen.L MecanismoJansen.init !! "a" = Some 38.0%float) ∧
  (snd (MecanismoJansen.actualizar_longitud "a" 38.0
          (snd (MecanismoJansen.actualizar_longitud "a" 120 MecanismoJansen.init)))
   = MecanismoJansen.init ∧
   snd (SimuladorJansenGUI.actualizar_escala (MecanismoJansen.escala MecanismoJansen.init)
          (snd (SimuladorJansenGUI.actualizar_escala 120 MecanismoJansen.init)))
   = MecanismoJansen.init).
Proof.
  split; [split; reflexivity |].
  apply (setters_undo "a" 38.0 120 MecanismoJansen.init); reflexivity.
Defined.

(** * Restoring the original proportions *)

(** Whatever a spin box emits when it is reset, the write that follows it
    in the loop overrides it. *)
Lemma restaurar_desde_run (emite : string -> float -> option float)
    (props : list (string * float)) (self : MecanismoJansen.t) :
  Ventana.restaurar_desde emite props self =
  (Ok tt,
   foldl (fun s '(clave, valor) => snd (MecanismoJansen.actualizar_longitud clave valor s))
         self props).
Proof.
  revert self. induction props as [| [clave valor] resto IH]; intros self; [reflexivity |].
  cbn [Ventana.restaurar_desde foldl]. rewrite <- IH.
  unfold mbind, MecanismoJansen.M_bind, SimuladorJansenGUI.actualizar_longitud.
  destruct (emite clave valor) as [w |].
  - rewrite !Run.actualizar_longitud_run. cbn. now rewrite insert_insert_eq.
  - cbn. rewrite !Run.actualizar_longitud_run. reflexivity.
Qed.

Lemma restaurar_originales_run (emite : string -> float -> option float)
    (self : MecanismoJansen.t) :
  Ventana.restaurar_originales emite self =
  (Ok tt,
   MecanismoJansen.mk
     (<["h" := 65.7%float]> (<["g" := 36.7%float]> (<["f" := 39.4%float]>
      (<["e" := 55.8%float]> (<["d" := 40.1%float]> (<["c" := 39.3%float]>
      (<["b" := 41.5%float]> (<["a" := 38.0%float]> (MecanismoJansen.L self)))))))))
     (MecanismoJansen.escala self)
     ((fun v => (v * MecanismoJansen.escala self)%float) <$>
      <["h" := 65.7%float]> (<["g" := 36.7%float]> (<["f" := 39.4%float]>
      (<["e" := 55.8%float]> (<["d" := 40.1%float]> (<["c" := 39.3%float]>
      (<["b" := 41.5%float]> (<["a" := 38.0%float]> (MecanismoJansen.L self)))))))))).
Proof.
  unfold Ventana.restaurar_originales. rewrite restaurar_desde_run.
  unfold Ventana.proporciones_originales. cbn [foldl].
  rewrite !Run.actualizar_longitud_run. reflexivity.
Qed.

(** "Restaurar Originales" on any mechanism: it returns normally; each of
    the eight links gets its original length, whatever it held and
    whatever the spin boxes emit on the way; every other raw entry (the
    offsets "m" and "n" among them) and the scale factor are kept, not
    restored; the scaled lengths are recomputed; and doing it twice
    changes nothing more. *)
Theorem restaurar_originales_effect (emite emite' : string -> float -> option float)
    (self : MecanismoJansen.t) :
  let r := Ventana.restaurar_originales emite self in
  fst r = Ok tt ∧
  (∀ clave valor, (clave, valor) ∈ Ventana.proporciones_originales →
     MecanismoJansen.L (snd r) !! clave = Some valor) ∧
  (∀ k, k ∉ Ventana.nombres →
     MecanismoJansen.L (snd r) !! k = MecanismoJansen.L self !! k) ∧
  MecanismoJansen.escala (snd r) = MecanismoJansen.escala self ∧
  consistente (snd r) ∧
  Ventana.restaurar_originales emite' self = r ∧
  Ventana.restaurar_originales emite' (snd r) = r.
Proof.
  cbv zeta. rewrite !restaurar_originales_run. cbn [fst snd].
  split; [reflexivity |]. split; [| split; [| split; [reflexivity |]]].
  - intros clave valor Hin. unfold Ventana.proporciones_originales in Hin.
    repeat (apply elem_of_cons in Hin as [[= -> ->] | Hin];
            [cbn; now simplify_map_eq |]).
    now apply elem_of_nil in Hin.
  - intros k Hk. unfold Ventana.nombres in Hk. cbn.
    rewrite !lookup_insert_ne; [reflexivity | ..]; intros <-; apply Hk; set_solver.
  - split; [reflexivity |]. split; [reflexivity |].
    cbn [MecanismoJansen.L MecanismoJansen.escala]. f_equal.
    assert (Hid : ∀ L0 : gmap string float,
      <["h" := 65.7%float]> (<["g" := 36.7%float]> (<["f" := 39.4%float]>
      (<["e" := 55.8%float]> (<["d" := 40.1%float]> (<["c" := 39.3%float]>
      (<["b" := 41.5%float]> (<["a" := 38.0%float]>
      (<["h" := 65.7%float]> (<["g" := 36.7%float]> (<["f" := 39.4%float]>
      (<["e" := 55.8%float]> (<["d" := 40.1%float]> (<["c" := 39.3%float]>
      (<["b" := 41.5%float]> (<["a" := 38.0%float]> L0)))))))))))))))
      = <["h" := 65.7%float]> (<["g" := 36.7%float]> (<["f" := 39.4%float]>
      (<["e" := 55.8%float]> (<["d" := 40.1%float]> (<["c" := 39.3%float]>
      (<["b" := 41.5%float]> (<["a" := 38.0%float]> L0)))))))).
    { intros L0. apply map_eq. intros k.
      destruct (decide (k ∈ Ventana.nombres)) as [Hin | Hout].
      - unfold Ventana.nombres in Hin.
        repeat (apply elem_of_cons in Hin as [-> | Hin]; [now simplify_map_eq |]).
        now apply elem_of_nil in Hin.
      - unfold Ventana.nombres in Hout.
        rewrite !lookup_insert_ne; [reflexivity | ..]; intros <-; apply Hout; set_solver. }
    now rewrite Hid.
Qed.

(** On a mechanism the window can produce, "Restaurar Originales" brings
    the raw lengths back to exactly the original proportions: the result
    is the mechanism [__init__] builds, but for the scale factor, which
    stays as the user set it. *)
Theorem restaurar_originales_alcanzable (emite : string -> float -> option float)
    (s : MecanismoJansen.t) :
  Ventana.alcanzable s ->
  Ventana.restaurar_originales emite s =
  (Ok tt,
   snd (SimuladorJansenGUI.actualizar_escala (MecanismoJansen.escala s) MecanismoJansen.init)).
Proof.
  intros Hs. pose proof (fun k => alcanzable_outside s k Hs) as Hout.
  rewrite restaurar_originales_run, Run.actualizar_escala_run.
  assert (HL :
    <["h" := 65.7%float]> (<["g" := 36.7%float]> (<["f" := 39.4%float]>
    (<["e" := 55.8%float]> (<["d" := 40.1%float]> (<["c" := 39.3%float]>
    (<["b" := 41.5%float]> (<["a" := 38.0%float]> (MecanismoJansen.L s))))))))
    = MecanismoJansen.L MecanismoJansen.init).
  { apply map_eq. intros k.
    destruct (decide (k ∈ Ventana.nombres)) as [Hin | Hk].
    - unfold Ventana.nombres in Hin.
      repeat (apply elem_of_cons in Hin as [-> | Hin]; [now simplify_map_eq |]).
      now apply elem_of_nil in Hin.
    - pose proof (Hout k Hk) as Hkeep. unfold Ventana.nombres in Hk.
      rewrite !lookup_insert_ne; [exact Hkeep | ..]; intros <-; apply Hk; set_solver. }
  now rewrite HL.
Qed.

(** An instance: after both couplers of D were shortened. *)
Lemma restaurar_originales_alcanzable_witness :
  Ventana.alcanzable Examples.short_couplers ∧
  Ventana.restaurar_originales (fun _ v => Some v) Examples.short_couplers =
  (Ok tt,
   snd (SimuladorJansenGUI.actualizar_escala
          (MecanismoJansen.escala Examples.short_couplers) MecanismoJansen.init)).
Proof.
  assert (H : Ventana.alcanzable Examples.short_couplers).
  { apply (Ventana.alc_longitud "c" 10); [set_solver |].
    apply (Ventana.alc_longitud "b" 10); [set_solver |].
    apply Ventana.alc_init. }
  split; [exact H |].
  apply (restaurar_originales_alcanzable (fun _ v => Some v) Examples.short_couplers).
  exact H.
Defined.

(** * Which lengths the solver needs *)

Section SolverKeys.
Import MecanismoJansen.

Variables np_cos np_sin : float -> float.
Variable scipy_fsolve : root_finder.

Local Abbreviation resolver_con := (resolver_con np_cos np_sin scipy_fsolve).
Local Abbreviation resolver_cinematica := (resolver_cinematica np_cos np_sin scipy_fsolve).
Local Abbreviation calcular_trayectoria := (calcular_trayectoria np_cos np_sin scipy_fsolve).

(** The solver reads nine entries of the dict and nothing else: two dicts
    that agree on them give the same snapshot or the same exception,
    whatever else they hold or lack. *)
Theorem solver_reads_nine_lengths (L1 L2 : gmap string float) (theta : float) :
  Forall (fun k => L1 !! k = L2 !! k) claves_leidas ->
  resolver_con L1 theta = resolver_con L2 theta.
Proof.
  unfold claves_leidas. intros H.
  repeat (apply Forall_cons in H as [? H]).
  unfold MecanismoJansen.resolver_con, getitem.
  repeat match goal with Heq : L1 !! _ = L2 !! _ |- _ => rewrite Heq; clear Heq end.
  reflexivity.
Qed.

(** With a root-finder that returns, the solver raises exactly when one
    of its nine lengths is missing, and what it raises is [KeyError] for
    the first missing identifier in the order m, n, a, b, c, d, e, f, g. *)
Theorem solver_raises_first_missing_key (L : gmap string float) (theta : float) :
  (∀ func x0, ∃ r, scipy_fsolve func x0 = Ok r) ->
  match List.find (fun k => match L !! k with None => true | Some _ => false end)
                  claves_leidas with
  | Some k => resolver_con L theta = Raise (KeyError k)
  | None => ∃ pts, resolver_con L theta = Ok pts
  end.
Proof.
  intros Htotal.
  unfold claves_leidas, MecanismoJansen.resolver_con, getitem, fsolve. cbn [List.find].
  repeat match goal with
         | |- context [L !! ?k] => destruct (L !! k); [cbn | reflexivity]
         | |- context [scipy_fsolve ?f ?x] =>
             let r := fresh "r" in
             destruct (Htotal f x) as [r ->]; cbn
         end.
  eexists. reflexivity.
Qed.

(** So on every mechanism the window can produce, a solve raises only if
    the root-finder itself does: with one that returns, every crank angle
    gets its six points and the instance is left as it was. *)
Theorem solver_returns_when_alcanzable (s : t) (theta : float) :
  Ventana.alcanzable s ->
  (∀ func x0, ∃ r, scipy_fsolve func x0 = Ok r) ->
  ∃ pts, resolver_cinematica theta s = (Ok pts, s).
Proof.
  intros Hs Htotal.
  destruct (alcanzable_lengths s Hs) as (_ & _ & [ls Hls]).
  rewrite Run.resolver_cinematica_run.
  rewrite (resolver_con_lengths np_cos np_sin scipy_fsolve _ ls theta Hls).
  unfold Spec.joint_pipeline, fsolve.
  repeat match goal with
         | |- context [scipy_fsolve ?f ?x] =>
             let r := fresh "r" in
             destruct (Htotal f x) as [r ->]; cbn
         end.
  eexists. reflexivity.
Qed.

(** A negative count is refused before the loop starts: the [ValueError]
    of [np.linspace] is not caught by the loop's [except] and leaves the
    sweep, the instance unchanged. *)
Theorem negative_count_raises (self : t) (n_puntos : Z) :
  (n_puntos < 0)%Z ->
  calcular_trayectoria n_puntos self = (Raise ValueError, self).
Proof.
  intros Hn. rewrite Run.calcular_trayectoria_run.
  unfold thetas, np.linspace.
  destruct (Z.ltb_spec n_puntos 0) as [_ | Hge]; [reflexivity | lia].
Qed.

End SolverKeys.

(** An instance: an entry the solver does not read ("z") is added to the
    scaled lengths of the initial mechanism. *)
Lemma solver_reads_nine_lengths_witness :
  let L1 := MecanismoJansen.L_scaled MecanismoJansen.init in
  let L2 := <["z" := 1%float]> (MecanismoJansen.L_scaled MecanismoJansen.init) in
  Forall (fun k => L1 !! k = L2 !! k) claves_leidas ∧
  MecanismoJansen.resolver_con Examples.cos_table Examples.sin_table
    Examples.fsolve_stalls L1 0
  = MecanismoJansen.resolver_con Examples.cos_table Examples.sin_table
    Examples.fsolve_stalls L2 0.
Proof.
  cbv zeta.
  assert (H : Forall (fun k => MecanismoJansen.L_scaled MecanismoJansen.init !! k
                               = <["z" := 1%float]>
                                   (MecanismoJansen.L_scaled MecanismoJansen.init) !! k)
                     claves_leidas).
  { unfold claves_leidas. repeat constructor; vm_compute; reflexivity. }
  split; [exact H |].
  apply (solver_reads_nine_lengths Examples.cos_table Examples.sin_table
           Examples.fsolve_stalls). exact H.
Defined.

(** An instance: the scaled lengths of the initial mechanism without "c"
    and "f"; the first one missed is "c". *)
Lemma solver_raises_first_missing_key_witness :
  (∀ func x0, ∃ r, Examples.fsolve_stalls func x0 = Ok r) ∧
  MecanismoJansen.resolver_con Examples.cos_table Examples.sin_table
    Examples.fsolve_stalls
    (delete "f" (delete "c" (MecanismoJansen.L_scaled MecanismoJansen.init))) 0
  = Raise (KeyError "c").
Proof.
  assert (H : ∀ func x0, ∃ r, Examples.fsolve_stalls func x0 = Ok r)
    by (intros func x0; eexists; reflexivity).
  split; [exact H |].
  exact (solver_raises_first_missing_key Examples.cos_table Examples.sin_table
           Examples.fsolve_stalls
           (delete "f" (delete "c" (MecanismoJansen.L_scaled MecanismoJansen.init))) 0 H).
Defined.

(** An instance: the mechanism with both couplers of D at 10 mm. *)
Lemma solver_returns_when_alcanzable_witness :
  (Ventana.alcanzable Examples.short_couplers ∧
   ∀ func x0, ∃ r, Examples.fsolve_stalls func x0 = Ok r) ∧
  ∃ pts,
    MecanismoJansen.resolver_cinematica Examples.cos_table Examples.sin_table
      Examples.fsolve_stalls 0 Examples.short_couplers
    = (Ok pts, Examples.short_couplers).
Proof.
  assert (H : Ventana.alcanzable Examples.short_couplers).
  { apply (Ventana.alc_longitud "c" 10); [set_solver |].
    apply (Ventana.alc_longitud "b" 10); [set_solver |].
    apply Ventana.alc_init. }
  assert (Ht : ∀ func x0, ∃ r, Examples.fsolve_stalls func x0 = Ok r)
    by (intros func x0; eexists; reflexivity).
  split; [split; [exact H | exact Ht] |].
  apply (solver_returns_when_alcanzable Examples.cos_table Examples.sin_table
           Examples.fsolve_stalls Examples.short_couplers 0); [exact H | exact Ht].
Defined.

Lemma negative_count_raises_witness :
  (-1 < 0)%Z ∧
  MecanismoJansen.calcular_trayectoria Examples.cos_table Examples.sin_table
    Examples.fsolve_stalls (-1) MecanismoJansen.init
  = (Raise ValueError, MecanismoJansen.init).
Proof.
  split; [lia |].
  apply (negative_count_raises Examples.cos_table Examples.sin_table
           Examples.fsolve_stalls MecanismoJansen.init (-1)). lia.
Defined.

(** * The window: animation state *)

Module FloatOrder.

(** Among values that are not NaN, what is not below-or-equal is above. *)
Lemma SFleb_false_ltb x y :
  np.SFis_nan x = false -> np.SFis_nan y = false ->
  SFleb y x = false -> SFltb x y = true.
Proof.
  unfold SFleb, SFltb.
  destruct x as [sx | sx | | sx mx ex], y as [sy | sy | | sy my ey]; simpl;
    try easy; intros _ _;
    try (destruct sx; easy); try (destruct sy; easy);
    try (destruct sx, sy; easy).
  destruct sx, sy; try easy; FloatFacts.cmp_cases; simpl; try easy; lia.
Qed.

Lemma leb_false_ltb x y :
  np.isnan x = false -> np.isnan y = false ->
  (y <=? x)%float = false -> (x <? y)%float = true.
Proof.
  unfold np.isnan. rewrite !FloatFacts.is_nan_spec, leb_spec, ltb_spec.
  apply SFleb_false_ltb.
Qed.

End FloatOrder.

(** The timer runs exactly while the animation flag is set, the slider is
    usable exactly while it is not, a running timer ticks at the chosen
    speed, and the slider stays within 0..360: this holds when the window
    opens and after every handler, whether it returns or raises. *)
Theorem ventana_coherente (self : Ventana.t) (valor : Z) :
  Ventana.coherente self ->
  Ventana.coherente Ventana.inicial ∧
  Ventana.coherente (Ventana.toggle_animacion self) ∧
  Ventana.coherente (Ventana.reiniciar_animacion self) ∧
  Ventana.coherente (Ventana.cambiar_angulo_manual valor self) ∧
  Ventana.coherente (Ventana.slider_angulo_setValue valor self) ∧
  Ventana.coherente (snd (Ventana.actualizar_animacion self)) ∧
  Ventana.coherente (snd (Ventana.cambiar_velocidad valor self)).
Proof.
  assert (Hset : ∀ w v, Ventana.coherente w → Ventana.coherente (Ventana.slider_angulo_setValue v w)).
  { intros [m th act vel [mn mx val en] [ta ti]] v (H1 & H2 & H3 & H4 & H5 & H6).
    cbn in *. subst mn mx.
    unfold Ventana.slider_angulo_setValue, Ventana.cambiar_angulo_manual. cbn.
    destruct (Z.eqb_spec (0 `max` (360 `min` v)) val) as [_ | _];
      [repeat split; cbn; auto; lia |].
    destruct act; cbn; repeat split; cbn; auto; lia. }
  intros Hc. split; [repeat split; cbn; auto; lia |].
  split; [| split; [| split; [| split; [| split]]]].
  - destruct self as [m th act vel [mn mx val en] [ta ti]].
    destruct Hc as (H1 & H2 & H3 & H4 & H5 & H6). cbn in *.
    unfold Ventana.toggle_animacion. cbn.
    destruct act; cbn; repeat split; cbn; auto; lia.
  - apply Hset. destruct self as [m th act vel [mn mx val en] [ta ti]]. exact Hc.
  - destruct self as [m th act vel [mn mx val en] [ta ti]].
    unfold Ventana.cambiar_angulo_manual. cbn. destruct act; exact Hc.
  - now apply Hset.
  - unfold Ventana.actualizar_animacion.
    destruct (py_int _) as [n | e]; cbn [snd].
    + apply Hset. destruct self as [m th act vel [mn mx val en] [ta ti]]. exact Hc.
    + destruct self as [m th act vel [mn mx val en] [ta ti]]. exact Hc.
  - unfold Ventana.cambiar_velocidad.
    destruct (valor =? 0)%Z; [exact Hc |].
    destruct (py_int _) as [n | e]; cbn [snd]; [| exact Hc].
    destruct self as [m th act vel [mn mx val en] [ta ti]].
    destruct Hc as (H1 & H2 & H3 & H4 & H5 & H6). cbn in *.
    destruct act; cbn; repeat split; cbn; auto; lia.
Qed.

Lemma ventana_coherente_witness :
  Ventana.coherente Ventana.inicial ∧
  (Ventana.coherente Ventana.inicial ∧
   Ventana.coherente (Ventana.toggle_animacion Ventana.inicial) ∧
   Ventana.coherente (Ventana.reiniciar_animacion Ventana.inicial) ∧
   Ventana.coherente (Ventana.cambiar_angulo_manual 90 Ventana.inicial) ∧
   Ventana.coherente (Ventana.slider_angulo_setValue 90 Ventana.inicial) ∧
   Ventana.coherente (snd (Ventana.actualizar_animacion Ventana.inicial)) ∧
   Ventana.coherente (snd (Ventana.cambiar_velocidad 90 Ventana.inicial))).
Proof.
  assert (H : Ventana.coherente Ventana.inicial) by (repeat split; cbn; auto; lia).
  split; [exact H |]. apply (ventana_coherente Ventana.inicial 90). exact H.
Defined.

(** Pressing the play button twice brings the window back: flag, angle,
    slider, speed and mechanism are as before, and so is the timer, up to
    the interval of a stopped timer, which takes the current speed. *)
Theorem toggle_twice (self : Ventana.t) :
  Ventana.coherente self ->
  Ventana.toggle_animacion (Ventana.toggle_animacion self) =
  Ventana.mk (Ventana.mecanismo self) (Ventana.theta_actual self)
    (Ventana.animacion_activa self) (Ventana.velocidad_animacion self)
    (Ventana.slider_angulo self)
    (Ventana.mk_timer (Ventana.isActive (Ventana.timer self))
                      (Ventana.velocidad_animacion self)).
Proof.
  destruct self as [m th act vel [mn mx val en] [ta ti]].
  intros (H1 & H2 & H3 & _). cbn in *. subst ta en.
  unfold Ventana.toggle_animacion. destruct act; cbn; reflexivity.
Qed.

Lemma toggle_twice_witness :
  Ventana.coherente Ventana.inicial ∧
  Ventana.toggle_animacion (Ventana.toggle_animacion Ventana.inicial) =
  Ventana.mk MecanismoJansen.init 0 false 50 (Ventana.mk_slider 0 360 0 true)
    (Ventana.mk_timer false 50).
Proof.
  assert (H : Ventana.coherente Ventana.inicial) by (repeat split; cbn; auto; lia).
  split; [exact H |]. apply (toggle_twice Ventana.inicial). exact H.
Defined.

(** While the animation runs, the slot of the slider does nothing. *)
Lemma cambiar_angulo_manual_animating (self : Ventana.t) (valor : Z) :
  Ventana.animacion_activa self = true ->
  Ventana.cambiar_angulo_manual valor self = self.
Proof. intros Hact. unfold Ventana.cambiar_angulo_manual. now rewrite Hact. Qed.

Lemma slider_setValue_animating (self : Ventana.t) (valor : Z) :
  Ventana.animacion_activa self = true ->
  Ventana.theta_actual (Ventana.slider_angulo_setValue valor self)
  = Ventana.theta_actual self.
Proof.
  intros Hact. unfold Ventana.slider_angulo_setValue.
  destruct (_ =? _)%Z; [reflexivity |].
  now rewrite cambiar_angulo_manual_animating.
Qed.

(** The angle a tick of the running animation leaves. *)
Lemma tick_theta (self : Ventana.t) :
  Ventana.animacion_activa self = true ->
  Ventana.theta_actual (snd (Ventana.actualizar_animacion self))
  = (let theta := (Ventana.theta_actual self + np_deg2rad (py_float 2))%float in
     if (2 * np.pi <=? theta)%float then 0%float else theta).
Proof.
  intros Hact. unfold Ventana.actualizar_animacion. cbv zeta.
  destruct (py_int _) as [n | e]; cbn [snd]; [| reflexivity].
  now rewrite slider_setValue_animating.
Qed.

(** While the animation runs the slider cannot move the crank: the slot
    of a slider change leaves the window as it is, so neither a slider
    change nor the slider update a tick makes itself feeds back into the
    angle, and a tick sets the angle to the old one plus deg2rad(2),
    replaced by 0 once that sum reaches 2π. *)
Theorem animating_slider_is_inert (self : Ventana.t) (valor : Z) :
  Ventana.animacion_activa self = true ->
  Ventana.cambiar_angulo_manual valor self = self ∧
  Ventana.theta_actual (Ventana.slider_angulo_setValue valor self)
  = Ventana.theta_actual self ∧
  Ventana.theta_actual (snd (Ventana.actualizar_animacion self))
  = (let theta := (Ventana.theta_actual self + np_deg2rad (py_float 2))%float in
     if (2 * np.pi <=? theta)%float then 0%float else theta).
Proof.
  intros Hact.
  split; [now apply cambiar_angulo_manual_animating |].
  split; [now apply slider_setValue_animating | now apply tick_theta].
Qed.

Lemma animating_slider_is_inert_witness :
  let self := Ventana.toggle_animacion Ventana.inicial in
  Ventana.animacion_activa self = true ∧
  (Ventana.cambiar_angulo_manual 90 self = self ∧
   Ventana.theta_actual (Ventana.slider_angulo_setValue 90 self)
   = Ventana.theta_actual self ∧
   Ventana.theta_actual (snd (Ventana.actualizar_animacion self))
   = (let theta := (Ventana.theta_actual self + np_deg2rad (py_float 2))%float in
      if (2 * np.pi <=? theta)%float then 0%float else theta)).
Proof.
  cbv zeta. split; [reflexivity |].
  apply (animating_slider_is_inert (Ventana.toggle_animacion Ventana.inicial) 90).
  reflexivity.
Defined.

(** A tick of the running animation never leaves the angle at or above
    2π: afterwards it is below 2π, unless it is NaN. *)
Theorem tick_keeps_angle_below_two_pi (self : Ventana.t) :
  Ventana.animacion_activa self = true ->
  let theta' := Ventana.theta_actual (snd (Ventana.actualizar_animacion self)) in
  np.isnan theta' = true ∨ (theta' <? 2 * np.pi)%float = true.
Proof.
  intros Hact. cbv zeta. rewrite (tick_theta self Hact). cbv zeta.
  destruct (2 * np.pi <=? _)%float eqn:Hle; [right; vm_compute; reflexivity |].
  destruct (np.isnan (Ventana.theta_actual self + np_deg2rad (py_float 2))) eqn:Hnan;
    [now left | right].
  apply FloatOrder.leb_false_ltb; [exact Hnan | vm_compute; reflexivity | exact Hle].
Qed.

Lemma tick_keeps_angle_below_two_pi_witness :
  let self := Ventana.toggle_animacion (Ventana.slider_angulo_setValue 360 Ventana.inicial) in
  (Ventana.animacion_activa self = true ∧
   (2 * np.pi <=? Ventana.theta_actual self)%float = true) ∧
  (let theta' := Ventana.theta_actual (snd (Ventana.actualizar_animacion self)) in
   np.isnan theta' = true ∨ (theta' <? 2 * np.pi)%float = true).
Proof.
  cbv zeta. split; [split; vm_compute; reflexivity |].
  apply (tick_keeps_angle_below_two_pi
           (Ventana.toggle_animacion (Ventana.slider_angulo_setValue 360 Ventana.inicial))).
  reflexivity.
Defined.

(** What the count of [cuadros_hasta_cero] means in terms of ticks. *)
Lemma cuadros_hasta_cero_spec (fuel : nat) (self : Ventana.t) (n : nat) :
  Ventana.cuadros_hasta_cero fuel self = Some n ->
  (1 ≤ n ≤ fuel)%nat ∧
  (∃ w, Ventana.cuadros n self = (None, w) ∧ Ventana.theta_actual w = 0%float) ∧
  ∀ m, (1 ≤ m < n)%nat →
       ∃ w, Ventana.cuadros m self = (None, w) ∧ Ventana.theta_actual w ≠ 0%float.
Proof.
  revert self n. induction fuel as [| fuel IH]; intros self n; [discriminate |].
  cbn [Ventana.cuadros_hasta_cero].
  destruct (Ventana.actualizar_animacion self) as [[e |] w1] eqn:Htick; [discriminate |].
  destruct (PrimFloat.Leibniz.eqb (Ventana.theta_actual w1) 0) eqn:Hzero.
  - intros [= <-]. apply FloatAxioms.Leibniz.eqb_spec in Hzero.
    split; [lia |]. split.
    + exists w1. cbn [Ventana.cuadros]. now rewrite Htick.
    + intros m Hm. lia.
  - destruct (Ventana.cuadros_hasta_cero fuel w1) as [n' |] eqn:Hrest; [| discriminate].
    intros [= <-]. destruct (IH w1 n' Hrest) as (Hn & (w & Hw & Hth) & Hbefore).
    split; [lia |]. split.
    + exists w. cbn [Ventana.cuadros]. now rewrite Htick.
    + intros m Hm. destruct m as [| m]; [lia |].
      cbn [Ventana.cuadros]. rewrite Htick.
      destruct m as [| m].
      * exists w1. split; [reflexivity |]. intros H0.
        apply FloatAxioms.Leibniz.eqb_spec in H0. congruence.
      * apply Hbefore. lia.
Qed.

(** The animation started from slider position [v] (0..360) gets back to
    angle 0 after exactly 181 - ceil(v/2) ticks (one tick only from
    position 358, where a single addition already rounds up to 2π), none
    of which raises, and not before.  A full turn from the reset position
    takes 181 ticks, not 180: in binary64, 180 additions of deg2rad(2)
    stay just below 2π. *)
Theorem animation_returns_to_zero (v : Z) :
  (0 ≤ v ≤ 360)%Z ->
  let self := Ventana.toggle_animacion (Ventana.slider_angulo_setValue v Ventana.inicial) in
  let n := if (v =? 358)%Z then 1%nat else (181 - Z.to_nat ((v + 1) / 2))%nat in
  (∃ w, Ventana.cuadros n self = (None, w) ∧ Ventana.theta_actual w = 0%float) ∧
  ∀ m, (1 ≤ m < n)%nat →
       ∃ w, Ventana.cuadros m self = (None, w) ∧ Ventana.theta_actual w ≠ 0%float.
Proof.
  intros Hv. cbv zeta.
  assert (Hall :
    forallb (fun i =>
      match Ventana.cuadros_hasta_cero 181
              (Ventana.toggle_animacion
                 (Ventana.slider_angulo_setValue (Z.of_nat i) Ventana.inicial)) with
      | Some n => Nat.eqb n (if (Z.of_nat i =? 358)%Z then 1%nat
                             else (181 - Z.to_nat ((Z.of_nat i + 1) / 2))%nat)
      | None => false
      end) (seq 0 361) = true) by (vm_compute; reflexivity).
  rewrite forallb_forall in Hall.
  specialize (Hall (Z.to_nat v)). rewrite Z2Nat.id in Hall by lia.
  assert (Hin : In (Z.to_nat v) (seq 0 361)) by (apply in_seq; lia).
  specialize (Hall Hin).
  destruct (Ventana.cuadros_hasta_cero 181 _) as [n |] eqn:Hn; [| discriminate].
  apply Nat.eqb_eq in Hall. subst n.
  destruct (cuadros_hasta_cero_spec _ _ _ Hn) as (_ & Hat & Hbefore).
  split; assumption.
Qed.

Lemma animation_returns_to_zero_witness :
  (0 ≤ 0 ≤ 360)%Z ∧
  (let self := Ventana.toggle_animacion (Ventana.slider_angulo_setValue 0 Ventana.inicial) in
   let n := if (0 =? 358)%Z then 1%nat else (181 - Z.to_nat ((0 + 1) / 2))%nat in
   (∃ w, Ventana.cuadros n self = (None, w) ∧ Ventana.theta_actual w = 0%float) ∧
   ∀ m, (1 ≤ m < n)%nat →
        ∃ w, Ventana.cuadros m self = (None, w) ∧ Ventana.theta_actual w ≠ 0%float).
Proof.
  split; [lia |]. apply (animation_returns_to_zero 0). lia.
Defined.

(** The speed slider (1..10) always yields a frame interval: the integer
    quotient 100 div valor, between 10 and 100 ms; it becomes the speed,
    and the interval of the timer only when the animation runs.  The
    value 0 would raise [ZeroDivisionError] and change nothing. *)
Theorem cambiar_velocidad_range (valor : Z) (self : Ventana.t) :
  (1 ≤ valor ≤ 10)%Z ->
  Ventana.cambiar_velocidad 0 self = (Some ZeroDivisionError, self) ∧
  (10 ≤ 100 / valor ≤ 100)%Z ∧
  Ventana.cambiar_velocidad valor self =
  (None,
   Ventana.mk (Ventana.mecanismo self) (Ventana.theta_actual self)
     (Ventana.animacion_activa self) (100 / valor)%Z (Ventana.slider_angulo self)
     (if Ventana.animacion_activa self
      then Ventana.mk_timer (Ventana.isActive (Ventana.timer self)) (100 / valor)%Z
      else Ventana.timer self)).
Proof.
  intros Hv. split; [reflexivity |].
  assert (Hcases : (valor = 1 ∨ valor = 2 ∨ valor = 3 ∨ valor = 4 ∨ valor = 5 ∨
                    valor = 6 ∨ valor = 7 ∨ valor = 8 ∨ valor = 9 ∨ valor = 10)%Z) by lia.
  assert (Hint : py_int (py_float 100 / py_float valor)%float = Returns (100 / valor)%Z).
  { repeat (destruct Hcases as [-> | Hcases]; [vm_compute; reflexivity |]).
    subst valor. vm_compute. reflexivity. }
  split.
  - repeat (destruct Hcases as [-> | Hcases]; [vm_compute; split; discriminate |]).
    subst valor. vm_compute. split; discriminate.
  - unfold Ventana.cambiar_velocidad.
    destruct (Z.eqb_spec valor 0) as [-> | _]; [lia |].
    now rewrite Hint.
Qed.

Lemma cambiar_velocidad_range_witness :
  (1 ≤ 3 ≤ 10)%Z ∧
  (Ventana.cambiar_velocidad 0 Ventana.inicial = (Some ZeroDivisionError, Ventana.inicial) ∧
   (10 ≤ 100 / 3 ≤ 100)%Z ∧
   Ventana.cambiar_velocidad 3 Ventana.inicial =
   (None,
    Ventana.mk (Ventana.mecanismo Ventana.inicial) (Ventana.theta_actual Ventana.inicial)
      (Ventana.animacion_activa Ventana.inicial) (100 / 3)%Z
      (Ventana.slider_angulo Ventana.inicial)
      (if Ventana.animacion_activa Ventana.inicial
       then Ventana.mk_timer (Ventana.isActive (Ventana.timer Ventana.inicial)) (100 / 3)%Z
       else Ventana.timer Ventana.inicial))).
Proof.
  split; [lia |]. apply (cambiar_velocidad_range 3 Ventana.inicial). lia.
Defined.

(** * The gait figures without the failed samples *)

Module FloatEq.
Import FloatFacts.

(** Two values that the comparison finds equal are one and the same, or
    are two zeros. *)
Lemma SFeqb_cases x y :
  SFeqb x y = true ->
  x = y ∨ ∃ s s', x = S754_zero s ∧ y = S754_zero s'.
Proof.
  unfold SFeqb.
  destruct x as [sx | sx | | sx mx ex], y as [sy | sy | | sy my ey]; simpl;
    try easy; try (destruct sx; easy); try (destruct sy; easy).
  - intros _. right. eauto.
  - destruct sx, sy; try easy; intros _; now left.
  - destruct sx, sy; try easy; cmp_cases; simpl; try easy; intros _; now left.
Qed.

Lemma SFleb_antisym x y :
  SFleb x y = true -> SFleb y x = true -> SFeqb x y = true.
Proof.
  unfold SFleb, SFeqb.
  destruct x as [sx | sx | | sx mx ex], y as [sy | sy | | sy my ey]; simpl;
    try easy; try (destruct sx; easy); try (destruct sy; easy);
    try (destruct sx, sy; easy).
  destruct sx, sy; try easy; cmp_cases; simpl; try easy; lia.
Qed.

Lemma SFsame_refl r :
  (np.SFis_nan r = true ∧ np.SFis_nan r = true) ∨ SFeqb r r = true.
Proof.
  destruct (np.SFis_nan r) eqn:Hr; [now left | right].
  unfold SFeqb. now rewrite SFcompare_refl.
Qed.

(** Subtraction does not tell the two zeros apart, except in the sign of
    a zero result. *)
Lemma SF64sub_same x x' y y' :
  SFeqb x x' = true -> SFeqb y y' = true ->
  (np.SFis_nan (SF64sub x y) = true ∧ np.SFis_nan (SF64sub x' y') = true) ∨
  SFeqb (SF64sub x y) (SF64sub x' y') = true.
Proof.
  intros Hx Hy.
  destruct (SFeqb_cases _ _ Hx) as [-> | (s & s' & -> & ->)];
    destruct (SFeqb_cases _ _ Hy) as [-> | (t & t' & -> & ->)].
  - apply SFsame_refl.
  - destruct x' as [sx | sx | | sx mx ex]; try discriminate.
    + right. now destruct sx, t, t'.
    + right. now destruct sx.
    + right. exact Hx.
  - destruct y' as [sy | sy | | sy my ey]; try discriminate.
    + right. now destruct s, s', sy.
    + apply SFsame_refl.
    + apply SFsame_refl.
  - right. now destruct s, s', t, t'.
Qed.

(** Nor does division by a given value. *)
Lemma SF64div_same x x' y :
  (np.SFis_nan x = true ∧ np.SFis_nan x' = true) ∨ SFeqb x x' = true ->
  (np.SFis_nan (SF64div x y) = true ∧ np.SFis_nan (SF64div x' y) = true) ∨
  SFeqb (SF64div x y) (SF64div x' y) = true.
Proof.
  intros [[Hx Hx'] | Hx].
  - destruct x, x'; try discriminate. now left.
  - destruct (SFeqb_cases _ _ Hx) as [-> | (s & s' & -> & ->)]; [apply SFsame_refl |].
    destruct y as [sy | sy | | sy my ey].
    + now left.
    + right. now destruct s, s', sy.
    + now left.
    + right. now destruct s, s', sy.
Qed.

Lemma leb_antisym (a b : float) :
  (a <=? b)%float = true -> (b <=? a)%float = true -> (a =? b)%float = true.
Proof. rewrite !leb_spec, FloatAxioms.eqb_spec. apply SFleb_antisym. Qed.

Lemma same_number_sub (a a' b b' : float) :
  (a =? a')%float = true -> (b =? b')%float = true ->
  same_number (a - b) (a' - b').
Proof.
  unfold same_number, np.isnan.
  rewrite !is_nan_spec, !FloatAxioms.eqb_spec, !sub_spec. apply SF64sub_same.
Qed.

Lemma same_number_div (a a' b : float) :
  same_number a a' -> same_number (a / b) (a' / b).
Proof.
  unfold same_number, np.isnan.
  rewrite !is_nan_spec, !FloatAxioms.eqb_spec, !div_spec. apply SF64div_same.
Qed.

End FloatEq.

(** The largest (smallest) of the values that are not NaN is the same
    number in two arrays that hold the same such values. *)
Lemma max_of_defined_same (l l' : list float) (m m' : float) :
  (∀ x, np.isnan x = false → (x ∈ l ↔ x ∈ l')) ->
  Spec.max_of_defined l m -> Spec.max_of_defined l' m' ->
  (m =? m')%float = true.
Proof.
  intros Hll (Hin & Hnan & Hall) (Hin' & Hnan' & Hall').
  apply FloatEq.leb_antisym.
  - apply Hall'; [now apply Hll | exact Hnan].
  - apply Hall; [now apply Hll | exact Hnan'].
Qed.

Lemma min_of_defined_same (l l' : list float) (m m' : float) :
  (∀ x, np.isnan x = false → (x ∈ l ↔ x ∈ l')) ->
  Spec.min_of_defined l m -> Spec.min_of_defined l' m' ->
  (m =? m')%float = true.
Proof.
  intros Hll (Hin & Hnan & Hall) (Hin' & Hnan' & Hall').
  apply FloatEq.leb_antisym.
  - apply Hall; [now apply Hll | exact Hnan'].
  - apply Hall'; [now apply Hll | exact Hnan].
Qed.

(** The figures of a trajectory with a defined entry in each column. *)
Lemma figures_of_defined_columns (trayectoria : list np.array2) :
  Spec.some_defined (fst <$> trayectoria) = true ->
  Spec.some_defined (snd <$> trayectoria) = true ->
  ∃ xmax xmin ymax,
    Spec.max_of_defined (fst <$> trayectoria) xmax ∧
    Spec.min_of_defined (fst <$> trayectoria) xmin ∧
    Spec.max_of_defined (snd <$> trayectoria) ymax ∧
    SimuladorJansenGUI.actualizar_informacion trayectoria
    = Ok (SimuladorJansenGUI.mk_informacion ((xmax - xmin) / 10)%float (ymax / 10)%float).
Proof.
  intros Hx Hy. destruct trayectoria as [| p rest]; [discriminate |].
  unfold SimuladorJansenGUI.actualizar_informacion.
  destruct (np.nanmax (fst <$> p :: rest)) as [xmax |] eqn:Hxmax; [| discriminate].
  destruct (np.nanmin (fst <$> p :: rest)) as [xmin |] eqn:Hxmin; [| discriminate].
  destruct (np.nanmax (snd <$> p :: rest)) as [ymax |] eqn:Hymax; [| discriminate].
  apply nanmax_spec in Hxmax. apply nanmin_spec in Hxmin. apply nanmax_spec in Hymax.
  rewrite Hx in Hxmax, Hxmin. rewrite Hy in Hymax.
  now exists xmax, xmin, ymax.
Qed.

(** On a trajectory whose samples are each wholly defined or wholly NaN,
    as the pairs the sweep records for a raising solve are, and that has a
    defined sample, the step length and the step height are the same
    numbers as those of the trajectory without its undefined samples. *)
Theorem gait_figures_without_undefined (trayectoria : list np.array2) :
  Forall (fun p => np.isnan (fst p) = np.isnan (snd p)) trayectoria ->
  Exists (fun p => Spec.defined p = true) trayectoria ->
  ∃ info info',
    SimuladorJansenGUI.actualizar_informacion trayectoria = Ok info ∧
    SimuladorJansenGUI.actualizar_informacion
      (filter (fun p => Spec.defined p = true) trayectoria) = Ok info' ∧
    same_number (SimuladorJansenGUI.longitud_paso info)
                (SimuladorJansenGUI.longitud_paso info') ∧
    same_number (SimuladorJansenGUI.altura_paso info)
                (SimuladorJansenGUI.altura_paso info').
Proof.
  intros Hall Hex. unfold np.array2 in *.
  rewrite Forall_forall in Hall.
  set (kept := filter (fun p : float * float => Spec.defined p = true) trayectoria).
  (* the columns of the two trajectories hold the same values *)
  assert (Hcol : ∀ (proj : float * float → float),
             (∀ p, p ∈ trayectoria → np.isnan (proj p) = negb (Spec.defined p)) →
             ∀ x, np.isnan x = false →
               (x ∈ proj <$> trayectoria ↔ x ∈ proj <$> kept)).
  { intros proj Hproj x Hx. rewrite !list_elem_of_fmap. split.
    - intros (p & -> & Hp). exists p. split; [reflexivity |].
      apply list_elem_of_filter. split; [| exact Hp].
      rewrite (Hproj p Hp) in Hx. now destruct (Spec.defined p).
    - intros (p & -> & Hp). exists p. split; [reflexivity |].
      now apply list_elem_of_filter in Hp as [_ Hp]. }
  assert (Hfst : ∀ p, p ∈ trayectoria → np.isnan (fst p) = negb (Spec.defined p)).
  { intros p Hp. specialize (Hall p Hp).
    unfold Spec.defined. rewrite <- Hall. now destruct (np.isnan (fst p)). }
  assert (Hsnd : ∀ p, p ∈ trayectoria → np.isnan (snd p) = negb (Spec.defined p)).
  { intros p Hp. specialize (Hall p Hp).
    unfold Spec.defined. rewrite Hall. now destruct (np.isnan (snd p)). }
  (* each column of each trajectory has a defined entry *)
  apply Exists_exists in Hex as (p0 & Hp0 & Hd0).
  assert (Hsome : ∀ (proj : float * float → float) (l : list (float * float)),
             (∀ p, p ∈ trayectoria → np.isnan (proj p) = negb (Spec.defined p)) →
             p0 ∈ l → Spec.some_defined (proj <$> l) = true).
  { intros proj l Hproj Hl. apply existsb_exists. exists (proj p0). split.
    - apply list_elem_of_In, list_elem_of_fmap. now exists p0.
    - rewrite (Hproj p0 Hp0), Hd0. reflexivity. }
  assert (Hk0 : p0 ∈ kept) by (apply list_elem_of_filter; now split).
  destruct (figures_of_defined_columns trayectoria
              (Hsome fst _ Hfst Hp0) (Hsome snd _ Hsnd Hp0))
    as (xmax & xmin & ymax & Hxmax & Hxmin & Hymax & Hinfo).
  destruct (figures_of_defined_columns kept
              (Hsome fst _ Hfst Hk0) (Hsome snd _ Hsnd Hk0))
    as (xmax' & xmin' & ymax' & Hxmax' & Hxmin' & Hymax' & Hinfo').
  do 2 eexists. split; [exact Hinfo |]. split; [exact Hinfo' |].
  cbn [SimuladorJansenGUI.longitud_paso SimuladorJansenGUI.altura_paso]. split.
  - apply FloatEq.same_number_div, FloatEq.same_number_sub.
    + exact (max_of_defined_same _ _ _ _ (Hcol fst Hfst) Hxmax Hxmax').
    + exact (min_of_defined_same _ _ _ _ (Hcol fst Hfst) Hxmin Hxmin').
  - apply FloatEq.same_number_div. right.
    exact (max_of_defined_same _ _ _ _ (Hcol snd Hsnd) Hymax Hymax').
Qed.

Lemma gait_figures_without_undefined_witness :
  let trayectoria := [(np.nan, np.nan); (30, 40)%float; (np.nan, np.nan); (10, 60)%float] in
  (Forall (fun p => np.isnan (fst p) = np.isnan (snd p)) trayectoria ∧
   Exists (fun p => Spec.defined p = true) trayectoria) ∧
  ∃ info info',
    SimuladorJansenGUI.actualizar_informacion trayectoria = Ok info ∧
    SimuladorJansenGUI.actualizar_informacion
      (filter (fun p => Spec.defined p = true) trayectoria) = Ok info' ∧
    same_number (SimuladorJansenGUI.longitud_paso info)
                (SimuladorJansenGUI.longitud_paso info') ∧
    same_number (SimuladorJansenGUI.altura_paso info)
                (SimuladorJansenGUI.altura_paso info').
Proof.
  cbv zeta.
  assert (H1 : Forall (fun p => np.isnan (fst p) = np.isnan (snd p))
                 [(np.nan, np.nan); (30, 40)%float; (np.nan, np.nan); (10, 60)%float])
    by (repeat constructor).
  assert (H2 : Exists (fun p => Spec.defined p = true)
                 [(np.nan, np.nan); (30, 40)%float; (np.nan, np.nan); (10, 60)%float])
    by (apply Exists_cons_tl, Exists_cons_hd; reflexivity).
  split; [split; assumption |].
  apply (gait_figures_without_undefined
           [(np.nan, np.nan); (30, 40)%float; (np.nan, np.nan); (10, 60)%float]);
    assumption.
Defined.
